(** * Checkout of a cart: [POST /api/carts/:cid/purchase]

    A shallow embedding of the purchase handler of
    [src/routes/carts.router.js] and of [generateUniqueCode], with the three
    collections the handler touches (products, carts, tickets) as explicit
    state.

    Conventions of the embedding.
    - Identifiers ([_id], [cid], user references) are strings.
    - Quantities and stock are integers ([Z]); the handler only compares and
      subtracts them.
    - Prices and totals are JavaScript numbers.  Their arithmetic is kept
      abstract: [madd] is [+], [mscale p q] is [p * q] and [mzero] is [0].
      Every statement below holds for any such arithmetic.
    - [Cart.findById(cid).populate("products.product")] hands every line item
      holding the same reference the same product document, and a reference
      with no product becomes [null].  [product.save()] is awaited right after
      the assignment to [product.stock].  One map from [_id] to product
      therefore stands both for the populated documents and for the product
      collection; a [null] product is a failed lookup in that map.
    - [Math.random().toString(36)] and [new Date()] are inputs of the handler.

    - [purchase] is the handler when the query by [cid] resolves, every
      write to the store is accepted and no other request runs between its
      awaits; [checkout] adds the rejected query and the rejected writes,
      and [load] and [resume] split the handler at its first await.

    The handler of the users router, [POST /users], is embedded in
    [Users] further down. *)

From Stdlib Require Import ZArith String Ascii List Permutation Lia.
From stdpp Require Import base option list gmap strings.

Open Scope Z_scope.

(** ** Ticket codes *)

Module Code.

(** [String.prototype.substr(start, length)] for non-negative arguments. *)
Definition substr (start len : nat) (s : string) : string :=
  String.substring start len s.

(** One character of [toUpperCase] on the ASCII range. *)
Definition upper_ascii (c : ascii) : ascii :=
  let n := nat_of_ascii c in
  if ((97 <=? n)%nat && (n <=? 122)%nat)%bool
  then ascii_of_nat (n - 32) else c.

Fixpoint toUpperCase (s : string) : string :=
  match s with
  | EmptyString => EmptyString
  | String c s' => String (upper_ascii c) (toUpperCase s')
  end.

(** [generateUniqueCode]: [rnd36] is [Math.random().toString(36)]. *)
Definition generateUniqueCode (rnd36 : string) : string :=
  toUpperCase (substr 2 9 rnd36).

End Code.

(** ** Data model *)

Abbreviation ObjectId := string.

Record CartItem := mkItem {
  product : ObjectId;
  quantity : Z
}.

Record Cart := mkCart {
  user : option ObjectId;
  products : list CartItem
}.

(** The arithmetic of prices: [madd a b] is [a + b], [mscale p q] is
    [p * q] for a quantity [q], and [mzero] is the literal [0]. *)
Class Number (money : Type) := {
  madd : money → money → money;
  mscale : money → Z → money;
  mzero : money
}.

Section Checkout.

Context `{Number money}.

Record Product := mkProduct {
  price : money;
  stock : Z
}.

Record TicketLine := mkLine {
  tl_product : ObjectId;
  tl_quantity : Z;
  tl_price : money
}.

Record Ticket := mkTicket {
  code : string;
  t_user : ObjectId;
  t_products : list TicketLine;
  total : money;
  createdAt : Z
}.

Record Db := mkDb {
  db_products : gmap ObjectId Product;
  db_carts : gmap ObjectId Cart;
  db_tickets : list Ticket
}.

(** The variables of the handler that the [for] loop updates. *)
Record Loop := mkLoop {
  docs : gmap ObjectId Product;
  totalAmount : money;
  productsNotProcessed : list ObjectId;
  productsProcessed : list CartItem
}.

(** Completion of a block of the handler: normally, or by the [TypeError]
    of reading a property of [null]; the loop variables are those at that
    moment. *)
Inductive Completion :=
| Normal (l : Loop)
| TypeError (l : Loop).

Definition loop_of (c : Completion) : Loop :=
  match c with Normal l | TypeError l => l end.

(** One iteration of [for (let item of cart.products)]. *)
Definition iteration (l : Loop) (item : CartItem) : Completion :=
  match docs l !! product item with
  | Some p =>
      if decide (quantity item ≤ stock p) then
        Normal {|
          docs := <[product item := {| price := price p;
                                       stock := stock p - quantity item |}]>
                    (docs l);
          totalAmount := madd (totalAmount l) (mscale (price p) (quantity item));
          productsNotProcessed := productsNotProcessed l;
          productsProcessed := productsProcessed l ++ [item] |}
      else
        Normal {|
          docs := docs l;
          totalAmount := totalAmount l;
          productsNotProcessed := productsNotProcessed l ++ [product item];
          productsProcessed := productsProcessed l |}
  | None => TypeError l
  end.

Fixpoint for_of (items : list CartItem) (l : Loop) : Completion :=
  match items with
  | [] => Normal l
  | item :: rest =>
      match iteration l item with
      | Normal l' => for_of rest l'
      | TypeError l' => TypeError l'
      end
  end.

(** [productsProcessed.map(item => ({product: item.product._id, ...}))];
    [None] is the [TypeError] of a [null] product. *)
Definition ticket_line (d : gmap ObjectId Product) (item : CartItem)
  : option TicketLine :=
  p ← d !! product item;
  Some {| tl_product := product item;
          tl_quantity := quantity item;
          tl_price := price p |}.

Definition ticket_lines (d : gmap ObjectId Product) (items : list CartItem)
  : option (list TicketLine) :=
  mapM (ticket_line d) items.

(** [cart.products.filter(item =>
       productsNotProcessed.includes(item.product._id))]. *)
Fixpoint residual (d : gmap ObjectId Product) (np : list ObjectId)
    (items : list CartItem) : option (list CartItem) :=
  match items with
  | [] => Some []
  | item :: rest =>
      _ ← d !! product item;
      rest' ← residual d np rest;
      Some (if decide (product item ∈ np) then item :: rest' else rest')
  end.

Inductive Response :=
| NotFound404
| BadRequest400
| Ok200 (ticket : Ticket) (notProcessed : list ObjectId)
| Error500.

Definition initial (d : gmap ObjectId Product) : Loop :=
  {| docs := d; totalAmount := mzero;
     productsNotProcessed := []; productsProcessed := [] |}.

Definition with_products (db : Db) (d : gmap ObjectId Product) : Db :=
  {| db_products := d; db_carts := db_carts db; db_tickets := db_tickets db |}.

(** The handler of [router.post("/:cid/purchase")], when the query by the
    identifier resolves, with a store that accepts every write, and with
    no other request between its awaits.  [checkout], [load] and [resume]
    further down have the cast, the rejected writes and the awaits. *)
Definition purchase (rnd36 : string) (now : Z) (cid : ObjectId) (db : Db)
  : Response * Db :=
  match db_carts db !! cid with
  | None => (NotFound404, db)
  | Some cart =>
      match user cart with
      | None => (BadRequest400, db)
      | Some u =>
          match for_of (products cart) (initial (db_products db)) with
          | TypeError l => (Error500, with_products db (docs l))
          | Normal l =>
              match ticket_lines (docs l) (productsProcessed l) with
              | None => (Error500, with_products db (docs l))
              | Some lines =>
                  let ticket :=
                    {| code := Code.generateUniqueCode rnd36;
                       t_user := u;
                       t_products := lines;
                       total := totalAmount l;
                       createdAt := now |} in
                  match residual (docs l) (productsNotProcessed l)
                          (products cart) with
                  | None =>
                      (Error500,
                       {| db_products := docs l;
                          db_carts := db_carts db;
                          db_tickets := db_tickets db ++ [ticket] |})
                  | Some kept =>
                      (Ok200 ticket (productsNotProcessed l),
                       {| db_products := docs l;
                          db_carts :=
                            <[cid := {| user := user cart; products := kept |}]>
                              (db_carts db);
                          db_tickets := db_tickets db ++ [ticket] |})
                  end
              end
          end
      end
  end.

End Checkout.

Arguments Product : clear implicits.
Arguments TicketLine : clear implicits.
Arguments Ticket : clear implicits.
Arguments Db : clear implicits.
Arguments Loop : clear implicits.
Arguments Completion : clear implicits.
Arguments Response : clear implicits.


(** ** Quantities used in the statements *)

Section Accounting.

Context `{Number money}.

(** Units of product [pid] in a list of line items. *)
Definition units (pid : ObjectId) (items : list CartItem) : Z :=
  foldr (λ item acc,
           if decide (product item = pid) then quantity item + acc else acc)
        0 items.

(** A product after [n] units have left its stock. *)
Definition debit (n : Z) (p : Product money) : Product money :=
  {| price := price p; stock := stock p - n |}.

Definition in_stock (d : gmap ObjectId (Product money)) : Prop :=
  map_Forall (λ _ p, 0 ≤ stock p) d.

#[export] Instance in_stock_dec d : Decision (in_stock d).
Proof. unfold in_stock. apply _. Defined.

(** The sum the handler accumulates, over the lines of a ticket,
    in their order. *)
Definition lines_total (lines : list (TicketLine money)) : money :=
  fold_left (λ acc ln, madd acc (mscale (tl_price ln) (tl_quantity ln)))
            lines mzero.

(** A ticket line without its price is the line item it was made from. *)
Definition item_of_line (ln : TicketLine money) : CartItem :=
  {| product := tl_product ln; quantity := tl_quantity ln |}.

Definition resolved (d : gmap ObjectId (Product money)) (item : CartItem)
  : Prop := is_Some (d !! product item).

Definition ticketed (t : Ticket money) (pid : ObjectId) : Prop :=
  pid ∈ map tl_product (t_products t).

End Accounting.

(** ** Properties of a checkout *)

Section Properties.

Context `{Number money}.

(** The loop of a checkout that passes both preconditions. *)
Definition checkout_loop (cid : ObjectId) (db : Db money)
  : option (Completion money) :=
  cart ← db_carts db !! cid;
  _ ← user cart;
  Some (for_of (products cart) (initial (db_products db))).

(** The line items whose reservation succeeded in a checkout. *)
Definition reservations (cid : ObjectId) (db : Db money) : list CartItem :=
  match checkout_loop cid db with
  | Some c => productsProcessed (loop_of c)
  | None => []
  end.

(** Conservation of line items: the checkout of a cart that passes both
    preconditions yields a ticket and a residual cart that share out the
    line items of the cart. *)
Definition conserves_line_items (rnd36 : string) (now : Z) (cid : ObjectId)
    (db : Db money) : Prop :=
  ∀ cart, db_carts db !! cid = Some cart → is_Some (user cart) →
    ∃ t np db' left,
      purchase rnd36 now cid db = (Ok200 t np, db') ∧
      db_carts db' !! cid = Some left ∧
      map item_of_line (t_products t) ++ products left ≡ₚ products cart.

(** Idempotence boundary: a second checkout, run on the outcome of a first
    one, leaves the stock of every ticketed product as it found it. *)
Definition rerun_spares_ticketed (rnd36 : string) (now : Z) (cid : ObjectId)
    (db : Db money) : Prop :=
  ∀ t np db1, purchase rnd36 now cid db = (Ok200 t np, db1) →
    ∀ rnd36' now' pid, ticketed t pid →
      db_products (purchase rnd36' now' cid db1).2 !! pid
      = db_products db1 !! pid.

(** Missing-product handling: a checkout of a cart with a line item whose
    product is [null] still answers with a ticket, and that product is in
    the not-processed list. *)
Definition tolerates_missing_product (rnd36 : string) (now : Z)
    (cid : ObjectId) (db : Db money) : Prop :=
  ∀ cart item, db_carts db !! cid = Some cart → is_Some (user cart) →
    item ∈ products cart → db_products db !! product item = None →
    ∃ t np db', purchase rnd36 now cid db = (Ok200 t np, db') ∧
                product item ∈ np.

(** Ticket code uniqueness in a ledger. *)
Definition unique_codes (tickets : list (Ticket money)) : Prop :=
  ∀ i j t1 t2, tickets !! i = Some t1 → tickets !! j = Some t2 →
               i ≠ j → code t1 ≠ code t2.

End Properties.

(** ** Concrete carts *)

#[export] Instance Z_number : Number Z :=
  {| madd := Z.add; mscale := Z.mul; mzero := 0 |}.

Module Scenario.

Open Scope string_scope.

(** The example of the specification: [P1] has stock 10 at price 3.00,
    [P2] has stock 1 at price 7.00, and cart [C1] of user [U1] holds
    2 of [P1] and 5 of [P2]. *)
Definition db0 : Db Z :=
  {| db_products := {[ "P1" := {| price := 3; stock := 10 |};
                       "P2" := {| price := 7; stock := 1 |} ]};
     db_carts := {[ "C1" := {| user := Some "U1";
                               products := [ mkItem "P1" 2; mkItem "P2" 5 ] |} ]};
     db_tickets := [] |}.

(** Two line items on the same product: 1 unit, then 20 units, of a
    product with stock 10. *)
Definition db_twice : Db Z :=
  {| db_products := {[ "P1" := {| price := 3; stock := 10 |} ]};
     db_carts := {[ "C1" := {| user := Some "U1";
                               products := [ mkItem "P1" 1; mkItem "P1" 20 ] |} ]};
     db_tickets := [] |}.

(** A line item whose product [P9] is not in the collection. *)
Definition db_missing : Db Z :=
  {| db_products := {[ "P1" := {| price := 3; stock := 10 |} ]};
     db_carts := {[ "C1" := {| user := Some "U1";
                               products := [ mkItem "P1" 2; mkItem "P9" 1 ] |} ]};
     db_tickets := [] |}.

(** A cart with no user, and a cart with a line item of quantity 0 on a
    product out of stock. *)
Definition db_anonymous : Db Z :=
  {| db_products := {[ "P1" := {| price := 3; stock := 10 |} ]};
     db_carts := {[ "C1" := {| user := None;
                               products := [ mkItem "P1" 2 ] |} ]};
     db_tickets := [] |}.

Definition db_zero : Db Z :=
  {| db_products := {[ "P1" := {| price := 3; stock := 0 |} ]};
     db_carts := {[ "C1" := {| user := Some "U1";
                               products := [ mkItem "P1" 0 ] |} ]};
     db_tickets := [] |}.

(** The ticket and the collections after the checkout of [C1] in [db0],
    with the draw [0.5] at time 0. *)
Definition ticket0 : Ticket Z :=
  {| code := "I"; t_user := "U1"; t_products := [mkLine "P1" 2 3];
     total := 6; createdAt := 0 |}.

Definition db0_after : Db Z :=
  {| db_products := {[ "P1" := {| price := 3; stock := 8 |};
                       "P2" := {| price := 7; stock := 1 |} ]};
     db_carts := {[ "C1" := {| user := Some "U1";
                               products := [mkItem "P2" 5] |} ]};
     db_tickets := [ticket0] |}.

(** The ticket and the collections after the checkout of [C1] in
    [db_zero]. *)
Definition ticket_zero : Ticket Z :=
  {| code := "I"; t_user := "U1"; t_products := [mkLine "P1" 0 3];
     total := 0; createdAt := 0 |}.

Definition db_zero_after : Db Z :=
  {| db_products := {[ "P1" := {| price := 3; stock := 0 |} ]};
     db_carts := {[ "C1" := {| user := Some "U1"; products := [] |} ]};
     db_tickets := [ticket_zero] |}.

(** The products once [P2] has been restocked to 50. *)
Definition restocked : gmap ObjectId (Product Z) :=
  {[ "P1" := {| price := 3; stock := 8 |};
     "P2" := {| price := 7; stock := 50 |} ]}.

End Scenario.

(** ** The stock guard, read on the products at the start *)

Section Guard.

Context `{Number money}.

(** [product && product.stock >= item.quantity] on the products [d]. *)
Definition in_reach (d : gmap ObjectId (Product money)) (item : CartItem)
  : Prop :=
  from_option (λ p, quantity item ≤ stock p) False (d !! product item).

#[export] Instance in_reach_dec d item : Decision (in_reach d item).
Proof. unfold in_reach. destruct (d !! product item); simpl; apply _. Defined.

#[export] Instance resolved_dec (d : gmap ObjectId (Product money)) item :
  Decision (resolved d item).
Proof. unfold resolved. apply _. Defined.

End Guard.

(** ** Registration of a user: [POST /users]

    The handler of the users router.  The body carries the fields the
    route documents as required as strings (and [age] as an integer), and
    [cart] and [role] when present.  The collection of users is the list of
    its documents in insertion order.  [bcrypt.hashSync(password)] draws a
    salt: the salt is an input of the handler.  The [User] schema is not
    part of the router: [validates] tells whether [newUser.save()] accepts
    a document. *)

Module Users.

Record Body := mkBody {
  b_first_name : string;
  b_last_name : string;
  b_email : string;
  b_age : Z;
  b_password : string;
  b_cart : option string;
  b_role : option string
}.

Record User := mkUser {
  first_name : string;
  last_name : string;
  email : string;
  age : Z;
  password : string;
  cart : option string;
  role : string
}.

Inductive Reply :=
| Created201   (* "Usuario creado exitosamente" *)
| Exists400    (* "El usuario ya existe" *)
| Server500.   (* "Error en el servidor" *)

(** [User.findOne({ email })]: the first document with that email. *)
Fixpoint findOne (e : string) (users : list User) : option User :=
  match users with
  | [] => None
  | u :: rest => if decide (email u = e) then Some u else findOne e rest
  end.

(** [req.body.role || "user"]: an absent or empty role is falsy. *)
Definition role_or_user (r : option string) : string :=
  match r with
  | Some s => if decide (s = EmptyString) then "user"%string else s
  | None => "user"%string
  end.

Section Register.

Variable hashSync : string → string → string.
Variable validates : User → bool.

Definition newUser (salt : string) (body : Body) : User :=
  {| first_name := b_first_name body;
     last_name := b_last_name body;
     email := b_email body;
     age := b_age body;
     password := hashSync (b_password body) salt;
     cart := b_cart body;
     role := role_or_user (b_role body) |}.

(** The handler of [router.post("/")]. *)
Definition register (salt : string) (body : Body) (users : list User)
  : Reply * list User :=
  match findOne (b_email body) users with
  | Some _ => (Exists400, users)
  | None =>
      if validates (newUser salt body)
      then (Created201, users ++ [newUser salt body])
      else (Server500, users)
  end.

End Register.

(** A request like those of [user.test.js], a toy hash and a schema that
    accepts every document. *)
Definition juan : Body :=
  {| b_first_name := "Juan"; b_last_name := "Perez";
     b_email := "juan.perez@example.com"; b_age := 30;
     b_password := "password123"; b_cart := None; b_role := None |}.

Definition toy_hash (pw salt : string) : string := (salt ++ "$" ++ pw)%string.

Definition accept_all (u : User) : bool := true.

(** The user stored for that request when the salt is [s1]. *)
Definition stored_juan : User := newUser toy_hash "s1" juan.

End Users.

(** ** The handler with its awaits

    [purchase] above is the handler when the query by the identifier
    resolves, with a store that accepts every write, run with no other
    request between its awaits.  Here the three are explicit.

    - The Mongoose models are not part of the router.  [Models] holds what
      they decide: whether the query [Cart.findById(cid).populate(...)]
      resolves (it rejects with a [CastError] when [cid] does not cast to
      an [ObjectId], and when the store does not answer), and whether
      [product.save()], [Ticket.create] and [cart.save()] resolve or reject.
    - The documents populated at the first await belong to the request.
      [product.save()] sets the modified field, [stock], on the stored
      product; nothing is read back from the collection afterwards.
    - [load] is the handler up to its first await, [resume] the rest of it,
      on the collections as they are when the request resumes. *)

Section Awaits.

Context `{Number money}.

Record Models := mkModels {
  query_resolves : string → bool;
  product_saves : ObjectId → Product money → bool;
  ticket_creates : Ticket money → bool;
  cart_saves : ObjectId → Cart → bool
}.

(** The store accepts every write. *)
Definition accepting (env : Models) : Prop :=
  (∀ pid p, product_saves env pid p = true) ∧
  (∀ t, ticket_creates env t = true) ∧
  (∀ cid cart, cart_saves env cid cart = true).

(** [await Cart.findById(cid).populate("products.product")]. *)
Inductive Loaded :=
| QueryRejected
| Absent
| Populated (cart : Cart) (snapshot : gmap ObjectId (Product money)).

Definition load (env : Models) (cid : ObjectId) (db : Db money) : Loaded :=
  if query_resolves env cid then
    match db_carts db !! cid with
    | Some cart => Populated cart (db_products db)
    | None => Absent
    end
  else QueryRejected.

(** The loop between two awaits: its variables, with the documents of the
    request in [docs], and the stored products; or an exception, with the
    stored products at that moment. *)
Inductive Flight :=
| Proceeds (l : Loop money) (stored : gmap ObjectId (Product money))
| Throws (stored : gmap ObjectId (Product money)).

(** [product.save()] of a document [p] that has become [p']: [$set] of
    [stock] on the stored product when the assignment changed it, and no
    write when it did not. *)
Definition save_stock (pid : ObjectId) (p p' : Product money)
    (stored : gmap ObjectId (Product money)) : gmap ObjectId (Product money) :=
  if decide (stock p' = stock p) then stored
  else alter (λ sp, {| price := price sp; stock := stock p' |}) pid stored.

Definition iteration_on (env : Models) (l : Loop money)
    (stored : gmap ObjectId (Product money)) (item : CartItem) : Flight :=
  match docs l !! product item with
  | Some p =>
      if decide (quantity item ≤ stock p) then
        let p' := {| price := price p; stock := stock p - quantity item |} in
        if product_saves env (product item) p' then
          Proceeds
            {| docs := <[product item := p']> (docs l);
               totalAmount := madd (totalAmount l)
                                   (mscale (price p) (quantity item));
               productsNotProcessed := productsNotProcessed l;
               productsProcessed := productsProcessed l ++ [item] |}
            (save_stock (product item) p p' stored)
        else Throws stored
      else
        Proceeds
          {| docs := docs l;
             totalAmount := totalAmount l;
             productsNotProcessed := productsNotProcessed l ++ [product item];
             productsProcessed := productsProcessed l |}
          stored
  | None => Throws stored
  end.

Fixpoint for_of_on (env : Models) (items : list CartItem) (l : Loop money)
    (stored : gmap ObjectId (Product money)) : Flight :=
  match items with
  | [] => Proceeds l stored
  | item :: rest =>
      match iteration_on env l stored item with
      | Proceeds l' stored' => for_of_on env rest l' stored'
      | Throws stored' => Throws stored'
      end
  end.

(** The handler from [if (!cart.user)] on, for the cart and the documents
    that [load] returned, on the collections [db] of that later moment. *)
Definition resume (env : Models) (rnd36 : string) (now : Z) (cid : ObjectId)
    (cart : Cart) (snapshot : gmap ObjectId (Product money)) (db : Db money)
  : Response money * Db money :=
  match user cart with
  | None => (BadRequest400, db)
  | Some u =>
      match for_of_on env (products cart) (initial snapshot) (db_products db)
      with
      | Throws stored => (Error500, with_products db stored)
      | Proceeds l stored =>
          match ticket_lines (docs l) (productsProcessed l) with
          | None => (Error500, with_products db stored)
          | Some lines =>
              let ticket :=
                {| code := Code.generateUniqueCode rnd36;
                   t_user := u;
                   t_products := lines;
                   total := totalAmount l;
                   createdAt := now |} in
              if ticket_creates env ticket then
                let ticketed :=
                  {| db_products := stored;
                     db_carts := db_carts db;
                     db_tickets := db_tickets db ++ [ticket] |} in
                match residual (docs l) (productsNotProcessed l)
                        (products cart) with
                | None => (Error500, ticketed)
                | Some kept =>
                    let cart' := {| user := user cart; products := kept |} in
                    if cart_saves env cid cart' then
                      (Ok200 ticket (productsNotProcessed l),
                       {| db_products := stored;
                          db_carts := <[cid := cart']> (db_carts db);
                          db_tickets := db_tickets db ++ [ticket] |})
                    else (Error500, ticketed)
                end
              else (Error500, with_products db stored)
          end
      end
  end.

(** The handler, run with no other request between its awaits. *)
Definition checkout (env : Models) (rnd36 : string) (now : Z)
    (cid : ObjectId) (db : Db money) : Response money * Db money :=
  match load env cid db with
  | QueryRejected => (Error500, db)
  | Absent => (NotFound404, db)
  | Populated cart snapshot => resume env rnd36 now cid cart snapshot db
  end.

(** CartNotFound, as the claim has it: an identifier that matches no
    stored cart is answered with the not-found failure, and nothing is
    changed. *)
Definition not_found_is_404 (env : Models) (rnd36 : string) (now : Z)
    (cid : ObjectId) (db : Db money) : Prop :=
  db_carts db !! cid = None →
  checkout env rnd36 now cid db = (NotFound404, db).

End Awaits.

Arguments Models : clear implicits.
Arguments Loaded : clear implicits.
Arguments Flight : clear implicits.

(** ** Identifiers that cast, and concurrent carts *)

Module Requests.

Open Scope string_scope.

Definition is_hex (c : ascii) : bool :=
  let n := nat_of_ascii c in
  ((48 <=? n) && (n <=? 57) || (65 <=? n) && (n <=? 70)
   || (97 <=? n) && (n <=? 102))%nat.

(** Strings of 24 hexadecimal digits cast to an [ObjectId]; the strings
    used below that are not of that form have neither 12 nor 24
    characters. *)
Definition hex24 (s : string) : bool :=
  (String.length s =? 24)%nat && forallb is_hex (list_ascii_of_string s).

(** Models whose query resolves on the strings of 24 hexadecimal digits
    and that accept every write. *)
Definition mongo : Models Z :=
  {| query_resolves := hex24;
     product_saves := λ _ _, true;
     ticket_creates := λ _, true;
     cart_saves := λ _ _, true |}.

(** Models whose query resolves on every identifier and that accept every
    write, for carts named as in the specification. *)
Definition lenient : Models Z :=
  {| query_resolves := λ _, true;
     product_saves := λ _ _, true;
     ticket_creates := λ _, true;
     cart_saves := λ _ _, true |}.

(** Models whose query resolves on every identifier and that reject
    [cart.save()]. *)
Definition cart_store_down : Models Z :=
  {| query_resolves := λ _, true;
     product_saves := λ _ _, true;
     ticket_creates := λ _, true;
     cart_saves := λ _ _, false |}.

Definition db_hex : Db Z :=
  {| db_products :=
       {[ "64b7f0c2a1d3e4f5a6b7c8e1" := {| price := 3; stock := 10 |} ]};
     db_carts :=
       {[ "64b7f0c2a1d3e4f5a6b7c8d9" :=
            {| user := Some "64b7f0c2a1d3e4f5a6b7c8f2";
               products := [ mkItem "64b7f0c2a1d3e4f5a6b7c8e1" 2 ] |} ]};
     db_tickets := [] |}.

(** Two carts with 6 units each of a product with stock 10. *)
Definition cart_A : Cart :=
  {| user := Some "UA"; products := [ mkItem "P1" 6 ] |}.

Definition cart_B : Cart :=
  {| user := Some "UB"; products := [ mkItem "P1" 6 ] |}.

Definition db_race : Db Z :=
  {| db_products := {[ "P1" := {| price := 3; stock := 10 |} ]};
     db_carts := {[ "CA" := cart_A; "CB" := cart_B ]};
     db_tickets := [] |}.

Definition ticket_A : Ticket Z :=
  {| code := "I"; t_user := "UA"; t_products := [mkLine "P1" 6 3];
     total := 18; createdAt := 1 |}.

Definition ticket_B : Ticket Z :=
  {| code := "9"; t_user := "UB"; t_products := [mkLine "P1" 6 3];
     total := 18; createdAt := 2 |}.

(** The ticket of request B when it starts after request A has ended. *)
Definition ticket_B_later : Ticket Z :=
  {| code := "9"; t_user := "UB"; t_products := [];
     total := 0; createdAt := 2 |}.

(** The collections after request A, and after request B. *)
Definition db_race_A : Db Z :=
  {| db_products := {[ "P1" := {| price := 3; stock := 4 |} ]};
     db_carts := {[ "CA" := {| user := Some "UA"; products := [] |};
                    "CB" := cart_B ]};
     db_tickets := [ticket_A] |}.

Definition db_race_AB : Db Z :=
  {| db_products := {[ "P1" := {| price := 3; stock := 4 |} ]};
     db_carts := {[ "CA" := {| user := Some "UA"; products := [] |};
                    "CB" := {| user := Some "UB"; products := [] |} ]};
     db_tickets := [ticket_A; ticket_B] |}.

End Requests.

(** ** More concrete carts *)

Module More_scenarios.

Open Scope string_scope.

(** An empty cart of user [U1]. *)
Definition db_empty : Db Z :=
  {| db_products := {[ "P1" := {| price := 3; stock := 10 |} ]};
     db_carts := {[ "C1" := {| user := Some "U1"; products := [] |} ]};
     db_tickets := [] |}.

(** The ticket and the collections after the checkout of [C1] in
    [Scenario.db_twice], with the draw [0.5] at time 0. *)
Definition ticket_twice : Ticket Z :=
  {| code := "I"; t_user := "U1"; t_products := [mkLine "P1" 1 3];
     total := 3; createdAt := 0 |}.

Definition db_twice_after : Db Z :=
  {| db_products := {[ "P1" := {| price := 3; stock := 9 |} ]};
     db_carts := {[ "C1" := {| user := Some "U1";
                               products := [ mkItem "P1" 1;
                                             mkItem "P1" 20 ] |} ]};
     db_tickets := [ticket_twice] |}.

(** The ticket and the collections after a second checkout of [C1], on
    [db_twice_after], with the draw [0.25] at time 1. *)
Definition ticket_twice_again : Ticket Z :=
  {| code := "9"; t_user := "U1"; t_products := [mkLine "P1" 1 3];
     total := 3; createdAt := 1 |}.

Definition db_twice_again : Db Z :=
  {| db_products := {[ "P1" := {| price := 3; stock := 8 |} ]};
     db_carts := {[ "C1" := {| user := Some "U1";
                               products := [ mkItem "P1" 1;
                                             mkItem "P1" 20 ] |} ]};
     db_tickets := [ticket_twice; ticket_twice_again] |}.

(** A line item of quantity -3 on a product with stock 10. *)
Definition db_negative : Db Z :=
  {| db_products := {[ "P1" := {| price := 3; stock := 10 |} ]};
     db_carts := {[ "C1" := {| user := Some "U1";
                               products := [ mkItem "P1" (-3) ] |} ]};
     db_tickets := [] |}.

Definition ticket_negative : Ticket Z :=
  {| code := "I"; t_user := "U1"; t_products := [mkLine "P1" (-3) 3];
     total := -9; createdAt := 0 |}.

Definition db_negative_after : Db Z :=
  {| db_products := {[ "P1" := {| price := 3; stock := 13 |} ]};
     db_carts := {[ "C1" := {| user := Some "U1"; products := [] |} ]};
     db_tickets := [ticket_negative] |}.

(** The products of [Scenario.db_missing] after 2 units of [P1] left. *)
Definition after_P1 : gmap ObjectId (Product Z) :=
  {[ "P1" := {| price := 3; stock := 8 |} ]}.

(** The second ticket on cart [C1] of [Scenario.db0], drawn [0.25] at
    time 1. *)
Definition ticket_again : Ticket Z :=
  {| code := "9"; t_user := "U1"; t_products := [];
     total := 0; createdAt := 1 |}.

End More_scenarios.

(** ** Proof steps on concrete carts *)

Ltac by_evaluation := vm_compute; reflexivity.
Ltac by_decision := apply (bool_decide_unpack _); vm_compute; exact I.

(** ** The loop *)

Section Loop_facts.

Context `{Number money}.
Implicit Types (l : Loop money) (d : gmap ObjectId (Product money)).
Implicit Types (item : CartItem) (items : list CartItem).

Lemma units_nil pid : units pid [] = 0.
Proof. reflexivity. Qed.

Lemma units_app pid xs ys : units pid (xs ++ ys) = units pid xs + units pid ys.
Proof.
  induction xs as [|x xs IH]; simpl; [lia|].
  case_decide; lia.
Qed.

Lemma units_snoc_eq xs item :
  units (product item) (xs ++ [item]) = units (product item) xs + quantity item.
Proof. rewrite units_app. simpl. rewrite decide_True by done. lia. Qed.

Lemma units_snoc_ne pid xs item :
  product item ≠ pid → units pid (xs ++ [item]) = units pid xs.
Proof. intros Hne. rewrite units_app. simpl. rewrite decide_False by done. lia. Qed.

Lemma debit_0 (p : Product money) : debit 0 p = p.
Proof. destruct p as [pr st]. unfold debit; simpl. f_equal. lia. Qed.

Lemma debit_debit n m (p : Product money) : debit m (debit n p) = debit (n + m) p.
Proof. unfold debit; simpl. f_equal. lia. Qed.

(** The three ways an iteration ends. *)
Lemma iteration_cases l item :
  (∃ p, docs l !! product item = Some p ∧ quantity item ≤ stock p ∧
        iteration l item = Normal
          {| docs := <[product item := debit (quantity item) p]> (docs l);
             totalAmount := madd (totalAmount l)
                                 (mscale (price p) (quantity item));
             productsNotProcessed := productsNotProcessed l;
             productsProcessed := productsProcessed l ++ [item] |}) ∨
  (∃ p, docs l !! product item = Some p ∧ stock p < quantity item ∧
        iteration l item = Normal
          {| docs := docs l;
             totalAmount := totalAmount l;
             productsNotProcessed := productsNotProcessed l ++ [product item];
             productsProcessed := productsProcessed l |}) ∨
  (docs l !! product item = None ∧ iteration l item = TypeError l).
Proof.
  unfold iteration. destruct (docs l !! product item) as [p|] eqn:Hp.
  - destruct (decide (quantity item ≤ stock p)) as [Hle|Hgt].
    + left. exists p. split; [done|]. split; done.
    + right; left. exists p. split; [done|]. split; [lia|done].
  - right; right. done.
Qed.

Lemma for_of_app xs ys l :
  for_of (xs ++ ys) l =
  match for_of xs l with
  | Normal l' => for_of ys l'
  | TypeError l' => TypeError l'
  end.
Proof.
  revert l. induction xs as [|x xs IH]; intros l; simpl; [done|].
  destruct (iteration l x); [apply IH | done].
Qed.

(** Invariants of the loop: [I seen l] relates the loop variables to the
    line items visited so far. *)
Lemma for_of_invariant (I : list CartItem → Loop money → Prop) :
  (∀ seen l item l',
      I seen l → iteration l item = Normal l' → I (seen ++ [item]) l') →
  ∀ items seen l, I seen l →
    ∃ visited rest, items = visited ++ rest ∧
      I (seen ++ visited) (loop_of (for_of items l)) ∧
      (∀ l', for_of items l = Normal l' → rest = []).
Proof.
  intros Hstep. induction items as [|item items IH]; intros seen l HI.
  - exists [], []. split; [done|]. split; [|done].
    simpl. by rewrite app_nil_r.
  - simpl. destruct (iteration l item) as [l1|l1] eqn:Hit.
    + destruct (IH (seen ++ [item]) l1) as (visited & rest & -> & HI' & Hrest);
        [by eapply Hstep|].
      exists (item :: visited), rest. split; [done|]. split; [|done].
      by rewrite <- app_assoc in HI'.
    + exists [], (item :: items). split; [done|]. split; [|done].
      rewrite app_nil_r. simpl.
      destruct (iteration_cases l item) as [(p&_&_&E)|[(p&_&_&E)|[_ E]]];
        congruence.
Qed.

Lemma for_of_Normal_invariant (I : list CartItem → Loop money → Prop) :
  (∀ seen l item l',
      I seen l → iteration l item = Normal l' → I (seen ++ [item]) l') →
  ∀ items l l', I [] l → for_of items l = Normal l' → I items l'.
Proof.
  intros Hstep items l l' HI Hfor.
  destruct (for_of_invariant I Hstep items [] l HI)
    as (visited & rest & -> & HI' & Hrest).
  pose proof (Hrest _ Hfor) as ->. rewrite Hfor in HI'.
  by rewrite app_nil_r in *.
Qed.

Lemma for_of_loop_invariant (I : Loop money → Prop) :
  (∀ l item l', I l → iteration l item = Normal l' → I l') →
  ∀ items l, I l → I (loop_of (for_of items l)).
Proof.
  intros Hstep items l HI.
  destruct (for_of_invariant (λ _, I)) with (items := items) (seen := @nil CartItem) (l := l)
    as (visited & rest & _ & HI' & _); eauto.
Qed.

(** *** Stock *)

Lemma iteration_docs l item l' pid :
  iteration l item = Normal l' →
  docs l' !! pid =
  debit (units pid (productsProcessed l') - units pid (productsProcessed l))
    <$> docs l !! pid.
Proof.
  intros Hit.
  destruct (iteration_cases l item) as [(p&Hp&Hle&E)|[(p&Hp&Hlt&E)|[_ E]]];
    rewrite E in Hit; [| |done]; injection Hit as <-; simpl.
  - destruct (decide (product item = pid)) as [<-|Hne].
    + rewrite lookup_insert_eq, Hp, units_snoc_eq. simpl.
      f_equal. f_equal. lia.
    + rewrite lookup_insert_ne, units_snoc_ne by done.
      rewrite Z.sub_diag. destruct (docs l !! pid); simpl; [|done].
      by rewrite debit_0.
  - rewrite Z.sub_diag. destruct (docs l !! pid); simpl; [|done].
    by rewrite debit_0.
Qed.

(** Every product holds its initial stock less the units of the line items
    processed since, at its initial price. *)
Lemma for_of_docs items l pid :
  let l' := loop_of (for_of items l) in
  docs l' !! pid =
  debit (units pid (productsProcessed l') - units pid (productsProcessed l))
    <$> docs l !! pid.
Proof.
  revert pid. simpl.
  apply (for_of_loop_invariant
           (λ l', ∀ pid, docs l' !! pid =
              debit (units pid (productsProcessed l')
                     - units pid (productsProcessed l)) <$> docs l !! pid)).
  - intros l1 item l2 IH Hit pid.
    rewrite (iteration_docs _ _ _ pid Hit), IH.
    destruct (docs l !! pid); simpl; [|done].
    rewrite debit_debit. f_equal. f_equal. lia.
  - intros pid. rewrite Z.sub_diag.
    destruct (docs l !! pid); simpl; [|done]. by rewrite debit_0.
Qed.

Lemma iteration_in_stock l item l' :
  in_stock (docs l) → iteration l item = Normal l' → in_stock (docs l').
Proof.
  intros Hin Hit.
  destruct (iteration_cases l item) as [(p&Hp&Hle&E)|[(p&Hp&Hlt&E)|[_ E]]];
    rewrite E in Hit; [| |done]; injection Hit as <-; simpl; [|done].
  intros pid q. destruct (decide (product item = pid)) as [<-|Hne].
  - rewrite lookup_insert_eq. intros [= <-]. simpl. lia.
  - rewrite lookup_insert_ne by done. apply Hin.
Qed.

Lemma for_of_in_stock items l :
  in_stock (docs l) → in_stock (docs (loop_of (for_of items l))).
Proof.
  apply (for_of_loop_invariant (λ l', in_stock (docs l'))).
  intros l1 item l2. apply iteration_in_stock.
Qed.

(** The loop leaves alone the products that no line item refers to. *)
Lemma for_of_frame items l pid :
  pid ∉ map product items →
  docs (loop_of (for_of items l)) !! pid = docs l !! pid.
Proof.
  intros Hout.
  destruct (for_of_invariant
              (λ seen l', pid ∉ map product seen →
                          docs l' !! pid = docs l !! pid))
    with (items := items) (seen := @nil CartItem) (l := l)
    as (visited & rest & -> & HI & _).
  - intros seen l1 item l2 IH Hit Hseen.
    rewrite map_app, elem_of_app in Hseen. simpl in Hseen.
    rewrite list_elem_of_singleton in Hseen.
    assert (product item ≠ pid) as Hne by (intros <-; tauto).
    rewrite (iteration_docs _ _ _ pid Hit), <- IH by tauto.
    destruct (iteration_cases l1 item) as [(p&Hp&Hle&E)|[(p&Hp&Hlt&E)|[_ E]]];
      rewrite E in Hit; [| |done]; injection Hit as <-; simpl.
    + rewrite units_snoc_ne, Z.sub_diag by done.
      destruct (docs l1 !! pid); simpl; [|done]. by rewrite debit_0.
    + rewrite Z.sub_diag.
      destruct (docs l1 !! pid); simpl; [|done]. by rewrite debit_0.
  - done.
  - apply HI. simpl. rewrite map_app, elem_of_app in Hout. tauto.
Qed.

(** *** Which line items resolve *)

Lemma for_of_resolved items l item :
  resolved (docs (loop_of (for_of items l))) item ↔ resolved (docs l) item.
Proof.
  unfold resolved. rewrite for_of_docs. apply fmap_is_Some.
Qed.

Lemma iteration_resolved l item l' i :
  iteration l item = Normal l' → resolved (docs l') i ↔ resolved (docs l) i.
Proof.
  intros Hit. unfold resolved.
  rewrite (iteration_docs _ _ _ _ Hit). apply fmap_is_Some.
Qed.

(** The loop completes normally exactly when no product is [null]. *)
Lemma for_of_Normal_iff items l :
  (∃ l', for_of items l = Normal l') ↔ Forall (resolved (docs l)) items.
Proof.
  revert l. induction items as [|item items IH]; intros l; simpl.
  - split; [constructor | eauto].
  - rewrite Forall_cons. destruct (iteration l item) as [l1|l1] eqn:Hit.
    + rewrite IH.
      assert (resolved (docs l) item) as Hr.
      { destruct (iteration_cases l item) as [(p&Hp&_)|[(p&Hp&_)|[_ E]]];
          [by exists p | by exists p | congruence]. }
      split.
      * intros HF. split; [done|].
        eapply Forall_impl; [exact HF|]. intros i.
        apply (iteration_resolved _ _ _ i Hit).
      * intros [_ HF]. eapply Forall_impl; [exact HF|]. intros i.
        apply (iteration_resolved _ _ _ i Hit).
    + split; [intros [l' [=]]|]. intros [[p Hp] _].
      destruct (iteration_cases l item) as [(q&_&_&E)|[(q&_&_&E)|[Hq _]]];
        congruence.
Qed.

Lemma for_of_Normal_resolved items l l' :
  for_of items l = Normal l' → Forall (resolved (docs l')) items.
Proof.
  intros Hfor.
  assert (Forall (resolved (docs l)) items) as HF
    by (apply for_of_Normal_iff; eauto).
  eapply Forall_impl; [exact HF|]. intros i Hi.
  pose proof (for_of_resolved items l i) as Hiff. rewrite Hfor in Hiff.
  by apply Hiff.
Qed.

Lemma residual_resolved d np items :
  Forall (resolved d) items →
  residual d np items = Some (filter (λ item, product item ∈ np) items).
Proof.
  induction 1 as [|item items [p Hp] _ IH]; simpl; [done|].
  rewrite Hp, IH. simpl. rewrite filter_cons. by case_decide.
Qed.

(** *** Ticket lines and the running total *)

Lemma lines_total_snoc (lines : list (TicketLine money)) ln :
  lines_total (lines ++ [ln]) =
  madd (lines_total lines) (mscale (tl_price ln) (tl_quantity ln)).
Proof. unfold lines_total. by rewrite fold_left_app. Qed.

Lemma ticket_line_ext d1 d2 item :
  price <$> d1 !! product item = price <$> d2 !! product item →
  ticket_line d1 item = ticket_line d2 item.
Proof.
  unfold ticket_line. intros Heq.
  destruct (d1 !! product item), (d2 !! product item); simpl in *;
    congruence.
Qed.

Lemma iteration_price l item l' pid :
  iteration l item = Normal l' →
  price <$> docs l' !! pid = price <$> docs l !! pid.
Proof.
  intros Hit. rewrite (iteration_docs _ _ _ pid Hit).
  by destruct (docs l !! pid).
Qed.

Lemma for_of_price items l pid :
  price <$> docs (loop_of (for_of items l)) !! pid = price <$> docs l !! pid.
Proof. rewrite for_of_docs. by destruct (docs l !! pid). Qed.

Lemma ticket_lines_snoc d (P : list CartItem) lines item ln :
  ticket_lines d P = Some lines → ticket_line d item = Some ln →
  ticket_lines d (P ++ [item]) = Some (lines ++ [ln]).
Proof.
  unfold ticket_lines. rewrite !mapM_Some. intros HF Hln.
  apply Forall2_app; [done|]. by repeat constructor.
Qed.

Lemma ticket_lines_ext d1 d2 (P : list CartItem) :
  (∀ pid, price <$> d1 !! pid = price <$> d2 !! pid) →
  ticket_lines d1 P = ticket_lines d2 P.
Proof.
  intros Heq. apply mapM_ext. intros item. by apply ticket_line_ext.
Qed.

(** The lines of a ticket are its line items, each with the price of its
    product. *)
Lemma ticket_lines_items d (P : list CartItem) lines :
  ticket_lines d P = Some lines →
  map item_of_line lines = P ∧
  Forall (λ ln, price <$> d !! tl_product ln = Some (tl_price ln)) lines.
Proof.
  unfold ticket_lines. rewrite mapM_Some.
  induction 1 as [|item ln P lines Hln _ [IH1 IH2]]; [by split|].
  unfold ticket_line in Hln.
  destruct (d !! product item) as [p|] eqn:Hp; simpl in Hln; [|done].
  injection Hln as <-. split.
  - simpl. unfold item_of_line at 1. simpl. destruct item. by f_equal.
  - constructor; [|done]. simpl. by rewrite Hp.
Qed.

(** The total the loop accumulates is the total of the lines that the
    processed items give. *)
Lemma for_of_total items d :
  let l := loop_of (for_of items (initial d)) in
  ∃ lines, ticket_lines (docs l) (productsProcessed l) = Some lines ∧
           totalAmount l = lines_total lines.
Proof.
  apply (for_of_loop_invariant
           (λ l, ∃ lines,
               ticket_lines (docs l) (productsProcessed l) = Some lines ∧
               totalAmount l = lines_total lines)).
  - intros l1 item l2 (lines & Hlines & Htotal) Hit.
    rewrite (ticket_lines_ext _ (docs l2)) in Hlines
      by (intros pid; symmetry; by eapply iteration_price).
    destruct (iteration_cases l1 item) as [(p&Hp&Hle&E)|[(p&Hp&Hlt&E)|[_ E]]];
      rewrite E in Hit; [| |done]; injection Hit as <-; simpl in *.
    + exists (lines ++ [mkLine (product item) (quantity item) (price p)]).
      split.
      * apply ticket_lines_snoc; [done|].
        unfold ticket_line. by rewrite lookup_insert_eq.
      * by rewrite lines_total_snoc, Htotal.
    + by exists lines.
  - by exists [].
Qed.

(** *** The partition of the cart *)

(** Every line item visited is either processed or has its product in the
    not-processed list. *)
Lemma for_of_partition items d l :
  for_of items (initial d) = Normal l →
  ∃ failed, productsNotProcessed l = map product failed ∧
            productsProcessed l ++ failed ≡ₚ items.
Proof.
  apply (for_of_Normal_invariant
           (λ seen l, ∃ failed,
               productsNotProcessed l = map product failed ∧
               productsProcessed l ++ failed ≡ₚ seen)).
  - intros seen l1 item l2 (failed & Hnp & Hperm) Hit.
    destruct (iteration_cases l1 item) as [(p&Hp&Hle&E)|[(p&Hp&Hlt&E)|[_ E]]];
      rewrite E in Hit; [| |done]; injection Hit as <-; simpl.
    + exists failed. split; [done|].
      rewrite <- Hperm, <- !app_assoc. apply Permutation_app_head.
      apply Permutation_app_comm.
    + exists (failed ++ [item]). split.
      * by rewrite map_app, Hnp.
      * by rewrite app_assoc, Hperm.
  - exists []. by split.
Qed.

Lemma filter_all {A} (P : A → Prop) `{∀ x, Decision (P x)} (xs : list A) :
  Forall P xs → filter P xs = xs.
Proof.
  induction 1 as [|x xs Hx _ IH]; [done|].
  by rewrite filter_cons_True, IH.
Qed.

Lemma filter_none {A} (P : A → Prop) `{∀ x, Decision (P x)} (xs : list A) :
  Forall (λ x, ¬ P x) xs → filter P xs = [].
Proof.
  induction 1 as [|x xs Hx _ IH]; [done|].
  by rewrite filter_cons_False, IH.
Qed.

(** With no product referred to twice, the filter on the not-processed
    products keeps the failed line items and drops the processed ones. *)
Lemma filter_failed (P failed items : list CartItem) :
  P ++ failed ≡ₚ items → NoDup (map product items) →
  filter (λ item, product item ∈ map product failed) items ≡ₚ failed.
Proof.
  intros Hperm Hnodup. rewrite <- Hperm in Hnodup |- *.
  rewrite map_app, NoDup_app in Hnodup. destruct Hnodup as (_ & Hdisj & _).
  rewrite filter_app, filter_none, filter_all; [done| |].
  - apply Forall_forall. intros item Hitem.
    apply list_elem_of_fmap. by exists item.
  - apply Forall_forall. intros item Hitem Hin.
    apply (Hdisj (product item)); [|done].
    apply list_elem_of_fmap. by exists item.
Qed.

End Loop_facts.

(** ** The handler *)

Section Purchase_facts.

Context `{Number money}.
Implicit Types (db : Db money) (cart : Cart) (t : Ticket money).

(** What a [200] answer tells about the run. *)
Lemma purchase_Ok200 rnd36 now cid db t np db' :
  purchase rnd36 now cid db = (Ok200 t np, db') →
  ∃ cart u l lines left,
    db_carts db !! cid = Some cart ∧ user cart = Some u ∧
    for_of (products cart) (initial (db_products db)) = Normal l ∧
    ticket_lines (docs l) (productsProcessed l) = Some lines ∧
    residual (docs l) (productsNotProcessed l) (products cart) = Some left ∧
    t = {| code := Code.generateUniqueCode rnd36; t_user := u;
           t_products := lines; total := totalAmount l;
           createdAt := now |} ∧
    np = productsNotProcessed l ∧
    db' = {| db_products := docs l;
             db_carts := <[cid := {| user := user cart; products := left |}]>
                           (db_carts db);
             db_tickets := db_tickets db ++ [t] |}.
Proof.
  unfold purchase. intros Hrun.
  destruct (db_carts db !! cid) as [cart|]; [|done].
  destruct (user cart) as [u|] eqn:Hu; [|done].
  destruct (for_of _ _) as [l|l] eqn:Hfor; [|done].
  destruct (ticket_lines _ _) as [lines|] eqn:Hlines; [|done].
  destruct (residual _ _ _) as [left|] eqn:Hleft; [|done].
  injection Hrun as <- <- <-.
  exists cart, u, l, lines, left. by rewrite Hu.
Qed.

(** What a ticket appended to the ledger tells about the run. *)
Lemma purchase_ticket rnd36 now cid db t :
  db_tickets (purchase rnd36 now cid db).2 = db_tickets db ++ [t] →
  ∃ cart u l lines,
    db_carts db !! cid = Some cart ∧ user cart = Some u ∧
    for_of (products cart) (initial (db_products db)) = Normal l ∧
    ticket_lines (docs l) (productsProcessed l) = Some lines ∧
    t = {| code := Code.generateUniqueCode rnd36; t_user := u;
           t_products := lines; total := totalAmount l;
           createdAt := now |}.
Proof.
  assert (∀ ts : list (Ticket money), ts ≠ ts ++ [t]) as Hgrow.
  { intros ts Heq. apply (f_equal length) in Heq.
    rewrite length_app in Heq. simpl in Heq. lia. }
  unfold purchase. intros Hrun.
  destruct (db_carts db !! cid) as [cart|]; [|by apply Hgrow in Hrun].
  destruct (user cart) as [u|] eqn:Hu; [|by apply Hgrow in Hrun].
  destruct (for_of _ _) as [l|l] eqn:Hfor; [|by apply Hgrow in Hrun].
  destruct (ticket_lines _ _) as [lines|] eqn:Hlines;
    [|by apply Hgrow in Hrun].
  exists cart, u, l, lines. repeat (split; [done|]).
  destruct (residual _ _ _); simpl in Hrun;
    apply app_inv_head in Hrun; by injection Hrun as <-.
Qed.

(** A cart with an owner and no [null] product is answered with [200]. *)
Lemma purchase_resolved rnd36 now cid db cart u :
  db_carts db !! cid = Some cart → user cart = Some u →
  Forall (resolved (db_products db)) (products cart) →
  ∃ l lines,
    for_of (products cart) (initial (db_products db)) = Normal l ∧
    ticket_lines (docs l) (productsProcessed l) = Some lines ∧
    let t := {| code := Code.generateUniqueCode rnd36; t_user := u;
                t_products := lines; total := totalAmount l;
                createdAt := now |} in
    purchase rnd36 now cid db =
    (Ok200 t (productsNotProcessed l),
     {| db_products := docs l;
        db_carts :=
          <[cid := {| user := user cart;
                      products := filter (λ item, product item
                                                  ∈ productsNotProcessed l)
                                         (products cart) |}]> (db_carts db);
        db_tickets := db_tickets db ++ [t] |}).
Proof.
  intros Hcart Hu Hres.
  destruct (proj2 (for_of_Normal_iff (products cart)
                     (initial (db_products db))) Hres) as [l Hfor].
  destruct (for_of_total (products cart) (db_products db))
    as (lines & Hlines & _).
  rewrite Hfor in Hlines. simpl in Hlines.
  exists l, lines. split; [done|]. split; [done|]. simpl.
  unfold purchase. rewrite Hcart, Hu, Hfor, Hlines.
  rewrite (residual_resolved _ _ _ (for_of_Normal_resolved _ _ _ Hfor)).
  done.
Qed.

(** The products after the handler are those the loop left. *)
Lemma purchase_products rnd36 now cid db :
  db_products (purchase rnd36 now cid db).2 =
  match checkout_loop cid db with
  | Some c => docs (loop_of c)
  | None => db_products db
  end.
Proof.
  unfold purchase, checkout_loop.
  destruct (db_carts db !! cid) as [cart|]; simpl; [|done].
  destruct (user cart) as [u|]; simpl; [|done].
  destruct (for_of _ _) as [l|l]; simpl; [|done].
  destruct (ticket_lines _ _) as [lines|]; simpl; [|done].
  by destruct (residual _ _ _).
Qed.

End Purchase_facts.

(** ** The claims *)

Section Claims.

Context `{Number money}.
Implicit Types (db : Db money) (cart : Cart) (t : Ticket money).

(** X23. For every cart with a user, all of whose line items resolve to
    an existing product and no two of whose line items refer to the same
    product, checkout answers [200], and the line items of the ticket
    together with the line items left in the cart are the line items of
    the original cart, each one once. *)
Theorem line_items_conserved rnd36 now cid db cart :
  db_carts db !! cid = Some cart →
  Forall (resolved (db_products db)) (products cart) →
  NoDup (map product (products cart)) →
  conserves_line_items rnd36 now cid db.
Proof.
  intros Hcart Hres Hnodup cart' Hcart' [u Hu].
  assert (cart' = cart) as -> by congruence.
  destruct (purchase_resolved rnd36 now cid db cart u Hcart Hu Hres)
    as (l & lines & Hfor & Hlines & Hrun). simpl in Hrun.
  eexists _, _, _, _. split; [exact Hrun|]. simpl.
  split; [apply lookup_insert_eq|]. simpl.
  destruct (ticket_lines_items _ _ _ Hlines) as [-> _].
  destruct (for_of_partition _ _ _ Hfor) as (failed & Hnp & Hperm).
  rewrite Hnp, (filter_failed _ _ _ Hperm Hnodup). exact Hperm.
Qed.

(** C3. For every checkout that creates a ticket, that is, appends one to
    the ledger, the total of the ticket is the sum, over the lines of the
    ticket itself, of the quantity times the unit price stored in the line;
    that price is the price the product had in the collection when the
    checkout ran, and nothing read later enters the total. *)
Theorem ticket_total_exact rnd36 now cid db t :
  db_tickets (purchase rnd36 now cid db).2 = db_tickets db ++ [t] →
  total t = lines_total (t_products t) ∧
  Forall (λ ln, price <$> db_products db !! tl_product ln
                = Some (tl_price ln)) (t_products t).
Proof.
  intros Hrun.
  destruct (purchase_ticket _ _ _ _ _ Hrun)
    as (cart & u & l & lines & Hcart & Hu & Hfor & Hlines & ->).
  simpl.
  destruct (for_of_total (products cart) (db_products db))
    as (lines' & Hlines' & Htotal).
  rewrite Hfor in Hlines', Htotal. simpl in Hlines', Htotal.
  assert (lines' = lines) as -> by congruence.
  split; [done|].
  destruct (ticket_lines_items _ _ _ Hlines) as [_ Hprices].
  eapply Forall_impl; [exact Hprices|]. intros ln Hln. simpl in Hln.
  rewrite <- Hln.
  pose proof (for_of_price (products cart) (initial (db_products db))
                (tl_product ln)) as Hp.
  rewrite Hfor in Hp. simpl in Hp. by rewrite Hp.
Qed.

(** C6. For every stored cart without an owning user, checkout answers
    with the bad-request failure and leaves products, carts and tickets as
    they were. *)
Theorem no_associated_user rnd36 now cid db cart :
  db_carts db !! cid = Some cart → user cart = None →
  purchase rnd36 now cid db = (BadRequest400, db).
Proof. intros Hcart Hu. unfold purchase. by rewrite Hcart, Hu. Qed.

Lemma for_of_docs_initial items (d : gmap ObjectId (Product money)) pid :
  let l := loop_of (for_of items (initial d)) in
  docs l !! pid = debit (units pid (productsProcessed l)) <$> d !! pid.
Proof.
  simpl. rewrite for_of_docs.
  change (productsProcessed (initial d)) with (@nil CartItem).
  change (docs (initial d)) with d.
  by rewrite units_nil, Z.sub_0_r.
Qed.

(** Processed line items stay processed. *)
Lemma for_of_processed_mono items (l : Loop money) item :
  item ∈ productsProcessed l →
  item ∈ productsProcessed (loop_of (for_of items l)).
Proof.
  apply (for_of_loop_invariant (λ l', item ∈ productsProcessed l')).
  intros l1 i l2 Hin Hit.
  destruct (iteration_cases l1 i) as [(p&Hp&Hle&E)|[(p&Hp&Hlt&E)|[_ E]]];
    rewrite E in Hit; [| |done]; injection Hit as <-; simpl; [|done].
  apply elem_of_app. by left.
Qed.

Lemma checkout_loop_Some cid db cart :
  db_carts db !! cid = Some cart → is_Some (user cart) →
  checkout_loop cid db
  = Some (for_of (products cart) (initial (db_products db))).
Proof. intros Hcart [u Hu]. unfold checkout_loop. by rewrite Hcart; simpl; rewrite Hu. Qed.

(** X24. When no two line items of the cart refer to the same product,
    a later checkout of the same cart, whatever the stocks have become
    after the first one answered [200], leaves the stock of every product
    ticketed by the first one as it finds it. *)
Theorem rerun_spares_distinct_products
    rnd36 now cid db cart t np db1 d2 rnd36' now' pid :
  db_carts db !! cid = Some cart →
  NoDup (map product (products cart)) →
  purchase rnd36 now cid db = (Ok200 t np, db1) →
  ticketed t pid →
  db_products (purchase rnd36' now' cid (with_products db1 d2)).2 !! pid
  = d2 !! pid.
Proof.
  intros Hcart Hnodup Hrun Hpid.
  destruct (purchase_Ok200 _ _ _ _ _ _ _ Hrun)
    as (cart' & u & l & lines & left & Hcart' & Hu & Hfor & Hlines & Hleft
        & -> & -> & ->).
  assert (cart' = cart) as -> by congruence.
  unfold ticketed in Hpid. simpl in Hpid.
  destruct (ticket_lines_items _ _ _ Hlines) as [Hitems _].
  destruct (for_of_partition _ _ _ Hfor) as (failed & Hnp & Hperm).
  rewrite (residual_resolved _ _ _ (for_of_Normal_resolved _ _ _ Hfor)) in Hleft.
  injection Hleft as <-.
  assert (pid ∉ map product
            (filter (λ item, product item ∈ productsNotProcessed l)
                    (products cart))) as Hout.
  { rewrite Hnp, (filter_failed _ _ _ Hperm Hnodup).
    rewrite <- Hperm, map_app, NoDup_app in Hnodup.
    destruct Hnodup as (_ & Hdisj & _). apply Hdisj.
    rewrite <- Hitems, map_map. exact Hpid. }
  rewrite purchase_products.
  erewrite checkout_loop_Some;
    [| simpl; apply lookup_insert_eq | simpl; rewrite Hu; by eexists].
  simpl. by apply for_of_frame.
Qed.

(** C10. In a checkout that creates a ticket, run on a collection with no
    negative stock, a line item of quantity 0 passes the stock guard
    whatever the stock of its product, is pushed to the processed items
    and gives a line of the ticket, adds [price * 0], that is 0, to the
    total, and leaves the products as they are. *)
Theorem zero_quantity_line rnd36 now cid db cart seen item rest t np db' :
  (∀ m : money, mscale m 0 = mzero) →
  (∀ m : money, madd m mzero = m) →
  in_stock (db_products db) →
  db_carts db !! cid = Some cart →
  products cart = seen ++ item :: rest →
  quantity item = 0 →
  purchase rnd36 now cid db = (Ok200 t np, db') →
  ∃ l p,
    for_of seen (initial (db_products db)) = Normal l ∧
    docs l !! product item = Some p ∧ 0 ≤ stock p ∧
    iteration l item
    = Normal {| docs := docs l;
                totalAmount := totalAmount l;
                productsNotProcessed := productsNotProcessed l;
                productsProcessed := productsProcessed l ++ [item] |} ∧
    mkLine (product item) 0 (price p) ∈ t_products t ∧
    mscale (price p) 0 = mzero.
Proof.
  intros Hscale Hadd Hin Hcart Hsplit Hzero Hrun.
  destruct (purchase_Ok200 _ _ _ _ _ _ _ Hrun)
    as (cart' & u & lf & lines & left & Hcart' & Hu & Hfor & Hlines & _
        & -> & _).
  assert (cart' = cart) as -> by congruence.
  rewrite Hsplit, for_of_app in Hfor.
  destruct (for_of seen _) as [l|l] eqn:Hseen; [|done].
  assert (in_stock (docs l)) as Hinl.
  { pose proof (for_of_in_stock seen (initial (db_products db)) Hin) as Hs.
    by rewrite Hseen in Hs. }
  simpl in Hfor.
  destruct (iteration l item) as [l1|l1] eqn:Hit; [|done].
  destruct (iteration_cases l item) as [(p&Hp&Hle&E)|[(p&Hp&Hlt&E)|[_ E]]];
    [| specialize (Hinl _ _ Hp); simpl in Hinl; lia | congruence].
  exists l, p. split; [done|]. split; [done|].
  split; [exact (Hinl _ _ Hp)|].
  assert (l1 = {| docs := docs l;
                  totalAmount := totalAmount l;
                  productsNotProcessed := productsNotProcessed l;
                  productsProcessed := productsProcessed l ++ [item] |})
    as Hl1.
  { rewrite E in Hit. injection Hit as <-.
    rewrite Hzero, Hscale, Hadd, debit_0, insert_id by done. done. }
  split; [by rewrite <- Hl1|]. split; [|done].
  assert (item ∈ productsProcessed lf) as Hproc.
  { pose proof (for_of_processed_mono rest l1 item) as Hm.
    rewrite Hfor in Hm. apply Hm. rewrite Hl1. simpl.
    apply elem_of_app. right. by apply list_elem_of_singleton. }
  unfold ticket_lines in Hlines. apply mapM_Some in Hlines.
  apply list_elem_of_lookup in Hproc as [i Hi].
  destruct (Forall2_lookup_l _ _ _ _ _ Hlines Hi) as (ln & Hln & Hline).
  apply list_elem_of_lookup_2 in Hln.
  simpl. unfold ticket_line in Hline.
  pose proof (for_of_price rest l1 (product item)) as Hprice.
  rewrite Hfor, Hl1 in Hprice. simpl in Hprice. rewrite Hp in Hprice.
  destruct (docs lf !! product item) as [p'|]; simpl in *; [|done].
  injection Hprice as Hprice. injection Hline as <-.
  by rewrite Hzero, Hprice in Hln.
Qed.

End Claims.

(** ** The claims on concrete carts *)

Module Examples.

Import Scenario.
Open Scope string_scope.

(** C9. The example scenario: 2 units of [P1] are reserved and its stock
    becomes 8, the stock of [P2] stays 1, the ticket has the single line
    [{P1, 2, 3.00}] and total 6.00, the cart is left with [{P2, 5}] only,
    and the not-processed list is [[P2]]. *)
Theorem example_scenario rnd36 now :
  let ticket := {| code := Code.generateUniqueCode rnd36;
                   t_user := "U1";
                   t_products := [mkLine "P1" 2 3];
                   total := 6;
                   createdAt := now |} in
  purchase rnd36 now "C1" db0
  = (Ok200 ticket ["P2"],
     {| db_products := {[ "P1" := {| price := 3; stock := 8 |};
                          "P2" := {| price := 7; stock := 1 |} ]};
        db_carts := {[ "C1" := {| user := Some "U1";
                                  products := [mkItem "P2" 5] |} ]};
        db_tickets := [ticket] |}).
Proof. vm_compute. reflexivity. Qed.

(** C4 (what the handler does instead). With a line item on a product
    that resolves to [null], the [else] branch reads [product._id] of
    [null]: the checkout answers [500], creates no ticket and leaves the
    cart as it was, while the stock reserved for the line items before it
    stays reserved. *)
Theorem missing_product_aborts rnd36 now :
  purchase rnd36 now "C1" db_missing
  = (Error500,
     {| db_products := {[ "P1" := {| price := 3; stock := 8 |} ]};
        db_carts := db_carts db_missing;
        db_tickets := [] |}) ∧
  ¬ tolerates_missing_product rnd36 now "C1" db_missing.
Proof.
  assert (purchase rnd36 now "C1" db_missing
          = (Error500,
             {| db_products := {[ "P1" := {| price := 3; stock := 8 |} ]};
                db_carts := db_carts db_missing;
                db_tickets := [] |})) as Hrun
    by (vm_compute; reflexivity).
  split; [exact Hrun|]. intros Htol.
  destruct (Htol {| user := Some "U1";
                    products := [ mkItem "P1" 2; mkItem "P9" 1 ] |}
                 (mkItem "P9" 1))
    as (t & np & db' & Hok & _).
  - vm_compute. reflexivity.
  - by eexists.
  - apply elem_of_cons. right. apply elem_of_cons. by left.
  - vm_compute. reflexivity.
  - rewrite Hrun in Hok. discriminate.
Qed.

(** C8 (what the handler does instead). The code of a ticket is the first
    nine base-36 digits of one random draw and is not compared with the
    codes in the ledger: two checkouts that draw the same number leave two
    different tickets with the same code. *)
Theorem ticket_codes_collide :
  let db1 := (purchase "0.i" 1 "C1" db0).2 in
  let db2 := (purchase "0.i" 2 "C1" db1).2 in
  map code (db_tickets db2) = ["I"; "I"] ∧
  NoDup (db_tickets db2) ∧
  ¬ unique_codes (db_tickets db2).
Proof.
  simpl.
  assert (db_tickets (purchase "0.i" 2 "C1" (purchase "0.i" 1 "C1" db0).2).2
          = [ {| code := "I"; t_user := "U1";
                 t_products := [mkLine "P1" 2 3]; total := 6;
                 createdAt := 1 |};
              {| code := "I"; t_user := "U1";
                 t_products := []; total := 0; createdAt := 2 |} ]) as ->
    by (vm_compute; reflexivity).
  split; [reflexivity|]. split.
  - apply NoDup_cons. split; [|apply NoDup_singleton].
    intros Hin. apply list_elem_of_singleton in Hin. discriminate.
  - intros Huniq. by apply (Huniq 0%nat 1%nat _ _ eq_refl eq_refl).
Qed.

(** *** The theorems at concrete carts *)

Lemma line_items_conserved_witness :
  NoDup (map product [mkItem "P1" 2; mkItem "P2" 5]) ∧
  conserves_line_items "0.i" 0 "C1" db0.
Proof.
  split; [by_decision|].
  apply (line_items_conserved "0.i" 0 "C1" db0
           {| user := Some "U1";
              products := [mkItem "P1" 2; mkItem "P2" 5] |}).
  - by_evaluation.
  - repeat (constructor; [eexists; by_evaluation|]). constructor.
  - by_decision.
Defined.

Lemma ticket_total_exact_witness :
  db_tickets (purchase "0.i" 0 "C1" db0).2
  = (db_tickets db0 ++ [ticket0])%list ∧
  total ticket0 = lines_total (t_products ticket0).
Proof.
  split; [by_evaluation|].
  apply (ticket_total_exact "0.i" 0 "C1" db0 ticket0). by_evaluation.
Defined.

Lemma no_associated_user_witness :
  purchase "0.i" 0 "C1" db_anonymous = (BadRequest400, db_anonymous).
Proof.
  apply (no_associated_user "0.i" 0 "C1" db_anonymous
           {| user := None; products := [mkItem "P1" 2] |}).
  - by_evaluation.
  - reflexivity.
Defined.

Lemma rerun_spares_distinct_products_witness :
  ticketed ticket0 "P1" ∧
  db_products (purchase "0.9" 1 "C1" (with_products db0_after restocked)).2
    !! "P1"
  = restocked !! "P1".
Proof.
  split; [apply elem_of_cons; by left|].
  apply (rerun_spares_distinct_products "0.i" 0 "C1" db0
           {| user := Some "U1";
              products := [mkItem "P1" 2; mkItem "P2" 5] |}
           ticket0 ["P2"] db0_after restocked "0.9" 1 "P1").
  - by_evaluation.
  - by_decision.
  - by_evaluation.
  - apply elem_of_cons. by left.
Defined.

Lemma zero_quantity_line_witness :
  ∃ (l : Loop Z) (p : Product Z),
    for_of [] (initial (db_products db_zero)) = Normal l ∧
    docs l !! "P1" = Some p ∧ (0 ≤ stock p)%Z ∧
    iteration l (mkItem "P1" 0)
    = Normal {| docs := docs l;
                totalAmount := totalAmount l;
                productsNotProcessed := productsNotProcessed l;
                productsProcessed := productsProcessed l ++ [mkItem "P1" 0] |} ∧
    mkLine "P1" 0 (price p) ∈ t_products ticket_zero ∧
    mscale (price p) 0 = mzero.
Proof.
  apply (zero_quantity_line "0.i" 0 "C1" db_zero
           {| user := Some "U1"; products := [mkItem "P1" 0] |}
           [] (mkItem "P1" 0) [] ticket_zero [] db_zero_after).
  - intros m. simpl. lia.
  - intros m. simpl. lia.
  - by_decision.
  - by_evaluation.
  - reflexivity.
  - reflexivity.
  - by_evaluation.
Defined.

End Examples.


(** ** More on the handler: answers, ledger, carts, products *)

Section Handler_behaviour.

Context `{Number money}.
Implicit Types (db : Db money) (cart : Cart) (t : Ticket money).
Implicit Types (l : Loop money) (d : gmap ObjectId (Product money)).

Lemma unresolved_Exists d (items : list CartItem) :
  ¬ Forall (resolved d) items →
  Exists (λ item, d !! product item = None) items.
Proof.
  intros Hnot. apply not_Forall_Exists in Hnot; [|apply _].
  eapply Exists_impl; [exact Hnot|]. intros item Hitem. simpl in Hitem.
  unfold resolved in Hitem. by apply eq_None_not_Some.
Qed.

(** With an owner and a [null] product the handler answers [500] and only
    the products have changed. *)
Lemma purchase_unresolved rnd36 now cid db cart u :
  db_carts db !! cid = Some cart → user cart = Some u →
  ¬ Forall (resolved (db_products db)) (products cart) →
  purchase rnd36 now cid db
  = (Error500,
     with_products db
       (docs (loop_of (for_of (products cart) (initial (db_products db)))))).
Proof.
  intros Hcart Hu Hnot. unfold purchase. rewrite Hcart, Hu.
  destruct (for_of _ _) as [l|l] eqn:Hfor; [|done].
  destruct Hnot.
  apply (proj1 (for_of_Normal_iff (products cart) (initial (db_products db)))).
  by exists l.
Qed.

(** The four ways the handler ends. *)
Lemma purchase_cases rnd36 now cid db :
  (db_carts db !! cid = None ∧
   purchase rnd36 now cid db = (NotFound404, db)) ∨
  (∃ cart, db_carts db !! cid = Some cart ∧ user cart = None ∧
           purchase rnd36 now cid db = (BadRequest400, db)) ∨
  (∃ cart u, db_carts db !! cid = Some cart ∧ user cart = Some u ∧
     ¬ Forall (resolved (db_products db)) (products cart) ∧
     purchase rnd36 now cid db
     = (Error500,
        with_products db
          (docs (loop_of (for_of (products cart)
                                 (initial (db_products db))))))) ∨
  (∃ cart u l lines, db_carts db !! cid = Some cart ∧ user cart = Some u ∧
     Forall (resolved (db_products db)) (products cart) ∧
     for_of (products cart) (initial (db_products db)) = Normal l ∧
     ticket_lines (docs l) (productsProcessed l) = Some lines ∧
     let t := {| code := Code.generateUniqueCode rnd36; t_user := u;
                 t_products := lines; total := totalAmount l;
                 createdAt := now |} in
     purchase rnd36 now cid db =
     (Ok200 t (productsNotProcessed l),
      {| db_products := docs l;
         db_carts :=
           <[cid := {| user := user cart;
                       products := filter (λ item, product item
                                                   ∈ productsNotProcessed l)
                                          (products cart) |}]> (db_carts db);
         db_tickets := db_tickets db ++ [t] |})).
Proof.
  destruct (db_carts db !! cid) as [cart|] eqn:Hcart.
  2: { left. split; [done|]. unfold purchase. by rewrite Hcart. }
  destruct (user cart) as [u|] eqn:Hu.
  2: { right; left. exists cart. split; [done|]. split; [done|].
       unfold purchase. by rewrite Hcart, Hu. }
  destruct (decide (Forall (resolved (db_products db)) (products cart)))
    as [Hres|Hnot].
  - right; right; right.
    destruct (purchase_resolved rnd36 now cid db cart u Hcart Hu Hres)
      as (l & lines & Hfor & Hlines & Hrun).
    by exists cart, u, l, lines.
  - right; right; left. exists cart, u.
    by rewrite (purchase_unresolved _ _ _ _ _ _ Hcart Hu Hnot).
Qed.

(** X3. A checkout never touches a cart other than the one it is run
    on, whatever the answer. *)
Theorem other_carts_untouched rnd36 now cid db cid' :
  cid' ≠ cid →
  db_carts (purchase rnd36 now cid db).2 !! cid' = db_carts db !! cid'.
Proof.
  intros Hne.
  destruct (purchase_cases rnd36 now cid db)
    as [[Hcart ->]|[(cart&Hcart&Hu&->)|[(cart&u&Hcart&Hu&Hnot&->)
       |(cart&u&l&lines&Hcart&Hu&Hres&_&_&->)]]]; simpl; try done.
  by rewrite lookup_insert_ne.
Qed.

(** X4. Whatever the answer, a checkout neither adds nor removes a
    product and changes no price. *)
Theorem catalogue_preserved rnd36 now cid db pid :
  price <$> db_products (purchase rnd36 now cid db).2 !! pid
  = price <$> db_products db !! pid.
Proof.
  rewrite purchase_products.
  destruct (checkout_loop cid db) as [c|] eqn:Hloop; [|done].
  unfold checkout_loop in Hloop.
  destruct (db_carts db !! cid) as [cart|]; simpl in Hloop; [|done].
  destruct (user cart); simpl in Hloop; [|done].
  injection Hloop as <-. apply for_of_price.
Qed.

(** X5. When the first line item with a [null] product comes after line
    items that all resolve, the handler answers [500] with the products as
    the loop over those earlier line items left them: their reservations
    are kept, no ticket is created and no cart is rewritten. *)
Theorem abort_keeps_earlier_reservations
    rnd36 now cid db cart u seen item rest :
  db_carts db !! cid = Some cart → user cart = Some u →
  products cart = seen ++ item :: rest →
  Forall (resolved (db_products db)) seen →
  db_products db !! product item = None →
  ∃ l, for_of seen (initial (db_products db)) = Normal l ∧
       purchase rnd36 now cid db = (Error500, with_products db (docs l)).
Proof.
  intros Hcart Hu Hsplit Hseen Hnull.
  destruct (proj2 (for_of_Normal_iff seen (initial (db_products db))) Hseen)
    as [l Hl].
  exists l. split; [done|].
  rewrite (purchase_unresolved _ _ _ _ cart u Hcart Hu).
  - rewrite Hsplit, for_of_app, Hl. simpl.
    destruct (iteration_cases l item) as [(p&Hp&_)|[(p&Hp&_)|[_ ->]]];
      [| |done].
    + pose proof (for_of_resolved seen (initial (db_products db)) item) as Hr.
      rewrite Hl in Hr. unfold resolved in Hr. simpl in Hr.
      rewrite Hp, Hnull in Hr. destruct Hr as [[? [=]] _]. by eexists.
    + pose proof (for_of_resolved seen (initial (db_products db)) item) as Hr.
      rewrite Hl in Hr. unfold resolved in Hr. simpl in Hr.
      rewrite Hp, Hnull in Hr. destruct Hr as [[? [=]] _]. by eexists.
  - rewrite Hsplit. intros HF. apply Forall_app in HF as [_ HF].
    apply Forall_cons in HF as [[p Hp] _]. congruence.
Qed.

(** *** Order, and what is kept *)

Lemma for_of_sublists (items : list CartItem) d :
  let l := loop_of (for_of items (initial d)) in
  productsProcessed l `sublist_of` items ∧
  productsNotProcessed l `sublist_of` map product items.
Proof.
  simpl.
  destruct (for_of_invariant
              (λ seen l, productsProcessed l `sublist_of` seen ∧
                         productsNotProcessed l `sublist_of` map product seen))
    with (items := items) (seen := @nil CartItem) (l := initial d)
    as (visited & rest & -> & [HP HN] & _).
  - intros seen l1 item l2 [HP HN] Hit.
    destruct (iteration_cases l1 item) as [(p&Hp&Hle&E)|[(p&Hp&Hlt&E)|[_ E]]];
      rewrite E in Hit; [| |done]; injection Hit as <-; simpl;
      rewrite map_app; simpl.
    + split; [by apply sublist_app | by apply sublist_inserts_r].
    + split; [by apply sublist_inserts_r | by apply sublist_app].
  - done.
  - simpl in HP, HN. rewrite map_app.
    split; by apply sublist_inserts_r.
Qed.

(** X6. The ticket and the not-processed list follow the order of the
    cart: the line items of the ticket, the products of the not-processed
    list and the line items left in the cart are each a subsequence of the
    cart as it was, and the cart keeps its user. *)
Theorem partition_in_cart_order rnd36 now cid db cart t np db' :
  db_carts db !! cid = Some cart →
  purchase rnd36 now cid db = (Ok200 t np, db') →
  map item_of_line (t_products t) `sublist_of` products cart ∧
  np `sublist_of` map product (products cart) ∧
  ∃ cart', db_carts db' !! cid = Some cart' ∧ user cart' = user cart ∧
           products cart' `sublist_of` products cart.
Proof.
  intros Hcart Hrun.
  destruct (purchase_Ok200 _ _ _ _ _ _ _ Hrun)
    as (cart' & u & l & lines & left & Hcart' & Hu & Hfor & Hlines & Hleft
        & -> & -> & ->).
  assert (cart' = cart) as -> by congruence. simpl.
  destruct (ticket_lines_items _ _ _ Hlines) as [-> _].
  pose proof (for_of_sublists (products cart) (db_products db)) as Hsub.
  simpl in Hsub. rewrite Hfor in Hsub. simpl in Hsub.
  destruct Hsub as [HP HN]. split; [done|]. split; [done|].
  eexists. split; [apply lookup_insert_eq|]. simpl. split; [done|].
  rewrite (residual_resolved _ _ _ (for_of_Normal_resolved _ _ _ Hfor)) in Hleft.
  injection Hleft as <-. apply sublist_filter.
Qed.

(** X7. The checkout of an empty cart that has a user answers [200] with
    a ticket without lines and with total [0], reports nothing as not
    processed, and changes neither a product nor a cart. *)
Theorem empty_cart_ticket rnd36 now cid db u :
  db_carts db !! cid = Some {| user := Some u; products := [] |} →
  let t := {| code := Code.generateUniqueCode rnd36; t_user := u;
              t_products := []; total := mzero; createdAt := now |} in
  purchase rnd36 now cid db
  = (Ok200 t [],
     {| db_products := db_products db;
        db_carts := db_carts db;
        db_tickets := db_tickets db ++ [t] |}).
Proof.
  intros Hcart. simpl. unfold purchase. rewrite Hcart. simpl.
  by rewrite insert_id.
Qed.

(** X8. After a [200] no line item is lost, with or without repeated
    products: every line item of the cart is in the ticket or still in the
    cart, and the line items still in the cart are exactly those whose
    product is in the not-processed list. *)
Theorem no_line_item_lost rnd36 now cid db cart t np db' :
  db_carts db !! cid = Some cart →
  purchase rnd36 now cid db = (Ok200 t np, db') →
  ∃ cart', db_carts db' !! cid = Some cart' ∧
    (∀ item, item ∈ products cart →
             item ∈ map item_of_line (t_products t) ∨ item ∈ products cart') ∧
    (∀ item, item ∈ products cart' ↔
             item ∈ products cart ∧ product item ∈ np).
Proof.
  intros Hcart Hrun.
  destruct (purchase_Ok200 _ _ _ _ _ _ _ Hrun)
    as (cart' & u & l & lines & left & Hcart' & Hu & Hfor & Hlines & Hleft
        & -> & -> & ->).
  assert (cart' = cart) as -> by congruence. simpl.
  destruct (ticket_lines_items _ _ _ Hlines) as [-> _].
  rewrite (residual_resolved _ _ _ (for_of_Normal_resolved _ _ _ Hfor)) in Hleft.
  injection Hleft as <-.
  destruct (for_of_partition _ _ _ Hfor) as (failed & Hnp & Hperm).
  eexists. split; [apply lookup_insert_eq|]. simpl. split.
  - intros item Hitem. rewrite <- Hperm in Hitem.
    apply elem_of_app in Hitem as [Hitem|Hitem]; [by left|]. right.
    apply list_elem_of_filter. split.
    + rewrite Hnp. apply list_elem_of_fmap. by exists item.
    + rewrite <- Hperm. apply elem_of_app. by right.
  - intros item. rewrite list_elem_of_filter. tauto.
Qed.

(** *** One line item per product *)

Lemma filter_ext_elem {A} (P Q : A → Prop)
    `{∀ x, Decision (P x)} `{∀ x, Decision (Q x)} (xs : list A) :
  (∀ x, x ∈ xs → P x ↔ Q x) → filter P xs = filter Q xs.
Proof.
  induction xs as [|x xs IH]; intros Hext; [done|].
  rewrite !filter_cons, IH
    by (intros y Hy; apply Hext; by apply elem_of_cons; right).
  apply decide_ext, Hext, elem_of_cons. by left.
Qed.

Lemma NoDup_fmap_inj {A B} (f : A → B) (xs : list A) x y :
  NoDup (map f xs) → x ∈ xs → y ∈ xs → f x = f y → x = y.
Proof.
  induction xs as [|z xs IH]; simpl; intros Hnodup Hx Hy Heq.
  - by apply elem_of_nil in Hx.
  - apply NoDup_cons in Hnodup as [Hz Hnodup].
    apply elem_of_cons in Hx as [->|Hx]; apply elem_of_cons in Hy as [->|Hy].
    + done.
    + destruct Hz. rewrite Heq. apply list_elem_of_fmap. by exists y.
    + destruct Hz. rewrite <- Heq. apply list_elem_of_fmap. by exists x.
    + by apply IH.
Qed.

(** With no product referred to twice, every line item meets its product
    with the stock it had at the start. *)
Lemma for_of_by_initial_stock (items : list CartItem) d l :
  NoDup (map product items) → for_of items (initial d) = Normal l →
  productsProcessed l = filter (in_reach d) items ∧
  productsNotProcessed l
  = map product (filter (λ item, ¬ in_reach d item) items).
Proof.
  intros Hnodup Hfor.
  cut (NoDup (map product items) →
       productsProcessed l = filter (in_reach d) items ∧
       productsNotProcessed l
       = map product (filter (λ item, ¬ in_reach d item) items) ∧
       ∀ pid, pid ∉ map product items → docs l !! pid = d !! pid);
    [intros Hcut; destruct (Hcut Hnodup) as (?&?&?); by split|].
  revert Hfor. clear Hnodup.
  apply (for_of_Normal_invariant
           (λ seen l, NoDup (map product seen) →
              productsProcessed l = filter (in_reach d) seen ∧
              productsNotProcessed l
              = map product (filter (λ item, ¬ in_reach d item) seen) ∧
              ∀ pid, pid ∉ map product seen → docs l !! pid = d !! pid)).
  - intros seen l1 item l2 IH Hit Hnodup.
    rewrite map_app, NoDup_app in Hnodup. simpl in Hnodup.
    destruct Hnodup as (Hseen & Hfresh & _).
    destruct (IH Hseen) as (HP & HN & Hdocs).
    assert (product item ∉ map product seen) as Hitem.
    { intros Hin. apply (Hfresh _ Hin). by apply list_elem_of_singleton. }
    rewrite !filter_app, !map_app. simpl. rewrite !filter_cons, !filter_nil.
    destruct (iteration_cases l1 item) as [(p&Hp&Hle&E)|[(p&Hp&Hlt&E)|[_ E]]];
      rewrite E in Hit; [| |done]; injection Hit as <-; simpl;
      rewrite (Hdocs _ Hitem) in Hp.
    + assert (in_reach d item) as Hreach
        by (unfold in_reach; by rewrite Hp).
      rewrite decide_True, decide_False by tauto. simpl.
      rewrite app_nil_r, HP. split; [done|]. split; [done|].
      intros pid Hpid. rewrite elem_of_app, list_elem_of_singleton in Hpid.
      rewrite lookup_insert_ne by (intros <-; tauto). apply Hdocs. tauto.
    + assert (¬ in_reach d item) as Hreach
        by (unfold in_reach; rewrite Hp; simpl; lia).
      rewrite decide_False, decide_True by tauto. simpl.
      rewrite app_nil_r, HP, HN. split; [done|]. split; [done|].
      intros pid Hpid. rewrite elem_of_app in Hpid. apply Hdocs. tauto.
  - intros _. done.
Qed.

Lemma filter_not_in_reach (items : list CartItem) d :
  NoDup (map product items) →
  filter (λ item, product item
                  ∈ map product (filter (λ i, ¬ in_reach d i) items)) items
  = filter (λ item, ¬ in_reach d item) items.
Proof.
  intros Hnodup. apply filter_ext_elem. intros item Hitem. split.
  - intros Hin. apply list_elem_of_fmap in Hin as (j & Heq & Hj).
    apply list_elem_of_filter in Hj as [Hj Hjin].
    by rewrite (NoDup_fmap_inj product items item j Hnodup Hitem Hjin Heq).
  - intros Hout. apply list_elem_of_fmap. exists item. split; [done|].
    by apply list_elem_of_filter.
Qed.

(** X9. With an owner, every product resolved and no product referred to
    twice, the stock at the start decides alone: the ticket holds, in cart
    order, the line items whose quantity is at most the initial stock of
    their product, and the cart is left with the others, whose products
    make the not-processed list. *)
Theorem initial_stock_decides rnd36 now cid db cart t np db' :
  db_carts db !! cid = Some cart →
  NoDup (map product (products cart)) →
  purchase rnd36 now cid db = (Ok200 t np, db') →
  let kept := filter (λ item, ¬ in_reach (db_products db) item)
                     (products cart) in
  map item_of_line (t_products t)
  = filter (in_reach (db_products db)) (products cart) ∧
  np = map product kept ∧
  db_carts db' !! cid = Some {| user := user cart; products := kept |}.
Proof.
  intros Hcart Hnodup Hrun.
  destruct (purchase_Ok200 _ _ _ _ _ _ _ Hrun)
    as (cart' & u & l & lines & left & Hcart' & Hu & Hfor & Hlines & Hleft
        & -> & -> & ->).
  assert (cart' = cart) as -> by congruence. simpl.
  destruct (ticket_lines_items _ _ _ Hlines) as [-> _].
  destruct (for_of_by_initial_stock _ _ _ Hnodup Hfor) as [HP HN].
  split; [done|]. split; [done|].
  rewrite lookup_insert_eq. do 2 f_equal.
  rewrite (residual_resolved _ _ _ (for_of_Normal_resolved _ _ _ Hfor)) in Hleft.
  injection Hleft as <-. rewrite HN. by apply filter_not_in_reach.
Qed.

Lemma units_notin pid (items : list CartItem) :
  pid ∉ map product items → units pid items = 0.
Proof.
  induction items as [|item items IH]; simpl; intros Hout; [done|].
  rewrite not_elem_of_cons in Hout. destruct Hout as [Hne Hout].
  rewrite decide_False by done. by apply IH.
Qed.

Lemma units_nonneg pid (items : list CartItem) :
  Forall (λ item, 0 ≤ quantity item) items → 0 ≤ units pid items.
Proof.
  induction 1 as [|item items Hq _ IH]; simpl; [done|]. case_decide; lia.
Qed.

(** A line item that failed the guard, in a cart with one line item per
    product, meets the same product after the loop. *)
Lemma for_of_failed_untouched (items : list CartItem) d l item :
  NoDup (map product items) → for_of items (initial d) = Normal l →
  item ∈ items → ¬ in_reach d item →
  docs l !! product item = d !! product item.
Proof.
  intros Hnodup Hfor Hitem Hout.
  pose proof (for_of_docs_initial items d (product item)) as Hdocs.
  simpl in Hdocs. rewrite Hfor in Hdocs. simpl in Hdocs.
  destruct (for_of_by_initial_stock _ _ _ Hnodup Hfor) as [HP _].
  rewrite Hdocs, HP, units_notin.
  - destruct (d !! product item); simpl; [|done]. by rewrite debit_0.
  - intros Hin. apply list_elem_of_fmap in Hin as (j & Heq & Hj).
    apply list_elem_of_filter in Hj as [Hj Hjin].
    by rewrite (NoDup_fmap_inj product items item j Hnodup Hitem Hjin Heq)
      in Hout.
Qed.

(** X10. With no product referred to twice, a second checkout run right
    after a [200] finds every line item left in the cart short of stock
    again: it answers [200] with an empty ticket of total [0] and the same
    not-processed list, and changes no product and no cart. *)
Theorem immediate_rerun_changes_nothing
    rnd36 now cid db cart t np db1 rnd36' now' :
  db_carts db !! cid = Some cart →
  NoDup (map product (products cart)) →
  purchase rnd36 now cid db = (Ok200 t np, db1) →
  let t' := {| code := Code.generateUniqueCode rnd36'; t_user := t_user t;
               t_products := []; total := mzero; createdAt := now' |} in
  purchase rnd36' now' cid db1
  = (Ok200 t' np,
     {| db_products := db_products db1;
        db_carts := db_carts db1;
        db_tickets := db_tickets db1 ++ [t'] |}).
Proof.
  intros Hcart Hnodup Hrun.
  destruct (purchase_Ok200 _ _ _ _ _ _ _ Hrun)
    as (cart' & u & l & lines & left & Hcart' & Hu & Hfor & Hlines & Hleft
        & -> & -> & ->).
  assert (cart' = cart) as -> by congruence. simpl.
  pose proof (for_of_Normal_resolved _ _ _ Hfor) as Hres.
  rewrite (residual_resolved _ _ _ Hres) in Hleft. injection Hleft as <-.
  destruct (for_of_by_initial_stock _ _ _ Hnodup Hfor) as [HP HN].
  rewrite HN, filter_not_in_reach by done.
  set (d := db_products db) in *.
  set (kept := filter (λ item, ¬ in_reach d item) (products cart)) in *.
  assert (kept `sublist_of` products cart) as Hsub by apply sublist_filter.
  assert (NoDup (map product kept)) as Hnodup'.
  { eapply sublist_NoDup; [exact Hnodup|]. by apply fmap_sublist. }
  assert (Forall (resolved (docs l)) kept) as Hres'.
  { apply Forall_forall. intros item Hitem.
    eapply Forall_forall in Hres; [exact Hres|]. by eapply elem_of_sublist. }
  assert (Forall (λ item, ¬ in_reach (docs l) item) kept) as Hshort.
  { apply Forall_forall. intros item Hitem.
    apply list_elem_of_filter in Hitem as [Hout Hitem].
    unfold in_reach.
    by rewrite (for_of_failed_untouched _ _ _ _ Hnodup Hfor Hitem Hout). }
  set (db1 := {| db_products := docs l;
                 db_carts := <[cid := {| user := user cart;
                                         products := kept |}]> (db_carts db);
                 db_tickets := db_tickets db ++ _ |}).
  destruct (purchase_resolved rnd36' now' cid db1
              {| user := user cart; products := kept |} u)
    as (l2 & lines2 & Hfor2 & Hlines2 & ->);
    [apply lookup_insert_eq | done | done |].
  simpl in Hfor2, Hlines2.
  destruct (for_of_by_initial_stock _ _ _ Hnodup' Hfor2) as [HP2 HN2].
  rewrite filter_none in HP2 by exact Hshort.
  rewrite filter_all in HN2 by done.
  rewrite HP2 in Hlines2. injection Hlines2 as <-.
  destruct (for_of_total kept (docs l)) as (lines' & Hlines' & Htotal).
  rewrite Hfor2 in Hlines', Htotal. simpl in Hlines', Htotal.
  rewrite HP2 in Hlines'. injection Hlines' as <-.
  assert (docs l2 = docs l) as Hdocs.
  { apply map_eq. intros pid.
    pose proof (for_of_docs_initial kept (docs l) pid) as Hd.
    simpl in Hd. rewrite Hfor2 in Hd. simpl in Hd. rewrite Hd, HP2.
    destruct (docs l !! pid); simpl; [|done]. by rewrite debit_0. }
  simpl. rewrite Htotal, HN2, Hdocs, insert_insert_eq, filter_all; [done|].
  apply Forall_forall. intros item Hitem.
  apply list_elem_of_fmap. by exists item.
Qed.

(** X11. When no line item of the cart has a negative quantity, a checkout
    raises the stock of no product, whatever its answer. *)
Theorem stock_never_increases rnd36 now cid db cart pid p p' :
  db_carts db !! cid = Some cart →
  Forall (λ item, 0 ≤ quantity item) (products cart) →
  db_products db !! pid = Some p →
  db_products (purchase rnd36 now cid db).2 !! pid = Some p' →
  stock p' ≤ stock p.
Proof.
  intros Hcart Hpos Hp. rewrite purchase_products. unfold checkout_loop.
  rewrite Hcart. simpl. destruct (user cart); simpl; [|intros; by simplify_eq].
  rewrite for_of_docs_initial, Hp. simpl. intros [= <-]. simpl.
  destruct (for_of_sublists (products cart) (db_products db)) as [Hsub _].
  cut (0 ≤ units pid
         (productsProcessed
            (loop_of (for_of (products cart) (initial (db_products db))))));
    [lia|].
  apply units_nonneg, Forall_forall. intros item Hitem.
  eapply Forall_forall in Hpos; [exact Hpos|]. by eapply elem_of_sublist.
Qed.

(** X12. The guard does not look at the sign of a quantity: in a checkout
    that answers [200], run on products with no negative stock, every line
    item whose quantity is zero or negative is in the ticket. *)
Theorem nonpositive_quantity_ticketed rnd36 now cid db cart item t np db' :
  in_stock (db_products db) →
  db_carts db !! cid = Some cart →
  item ∈ products cart → quantity item ≤ 0 →
  purchase rnd36 now cid db = (Ok200 t np, db') →
  item ∈ map item_of_line (t_products t).
Proof.
  intros Hin Hcart Hitem Hq Hrun.
  destruct (purchase_Ok200 _ _ _ _ _ _ _ Hrun)
    as (cart' & u & l & lines & left & Hcart' & Hu & Hfor & Hlines & _
        & -> & _).
  assert (cart' = cart) as -> by congruence. simpl.
  destruct (ticket_lines_items _ _ _ Hlines) as [-> _].
  cut (in_stock (docs l) ∧
       ∀ i, i ∈ products cart → quantity i ≤ 0 → i ∈ productsProcessed l);
    [intros [_ Hall]; by apply Hall|].
  revert Hfor.
  apply (for_of_Normal_invariant
           (λ seen l, in_stock (docs l) ∧
              ∀ i, i ∈ seen → quantity i ≤ 0 → i ∈ productsProcessed l)).
  - intros seen l1 i l2 [Hin1 Hall] Hit.
    split; [by eapply iteration_in_stock|].
    intros j Hj Hjq. apply elem_of_app in Hj as [Hj|Hj].
    + specialize (Hall j Hj Hjq).
      destruct (iteration_cases l1 i) as [(p&Hp&Hle&E)|[(p&Hp&Hlt&E)|[_ E]]];
        rewrite E in Hit; [| |done]; injection Hit as <-; simpl; [|done].
      apply elem_of_app. by left.
    + apply list_elem_of_singleton in Hj as ->.
      destruct (iteration_cases l1 i) as [(p&Hp&Hle&E)|[(p&Hp&Hlt&E)|[_ E]]];
        rewrite E in Hit; [| |done]; injection Hit as <-; simpl.
      * apply elem_of_app. right. by apply list_elem_of_singleton.
      * specialize (Hin1 _ _ Hp). simpl in Hin1. lia.
  - split; [done|]. intros i Hi. by apply elem_of_nil in Hi.
Qed.

End Handler_behaviour.

(** ** The shape of a ticket code *)

Section Code_shape.

Local Open Scope nat_scope.

Lemma length_substring (n m : nat) (s : string) :
  String.length (String.substring n m s) = Nat.min m (String.length s - n).
Proof.
  revert n m. induction s as [|c s IH]; intros [|n] [|m]; simpl;
    rewrite ?IH, ?Nat.sub_0_r; try lia.
  destruct (String.length s - n); lia.
Qed.

Lemma length_toUpperCase (s : string) :
  String.length (Code.toUpperCase s) = String.length s.
Proof. induction s as [|c s IH]; simpl; [done|]. by rewrite IH. Qed.

Lemma substring_append (n m : nat) (s w : string) :
  n + m ≤ String.length s →
  String.substring n m (s ++ w)%string = String.substring n m s.
Proof.
  revert n m. induction s as [|c s IH]; intros n m Hlen; simpl in *.
  - assert (n = 0) as -> by lia. assert (m = 0) as -> by lia.
    by destruct w.
  - destruct n as [|n], m as [|m]; try done.
    + by rewrite (IH 0 m) by lia.
    + apply IH. lia.
    + apply IH. lia.
Qed.

Lemma upper_ascii_not_lower (c : ascii) :
  let n := nat_of_ascii (Code.upper_ascii c) in ¬ (97 ≤ n ≤ 122).
Proof.
  destruct c as [[] [] [] [] [] [] [] []]; vm_compute; lia.
Qed.

(** X13. A ticket code has as many characters as the rendering of the draw
    has after its first two, up to nine: it is never longer than nine
    characters, and it is empty when the rendering has at most two. *)
Theorem code_length (rnd36 : string) :
  String.length (Code.generateUniqueCode rnd36)
  = Nat.min 9 (String.length rnd36 - 2).
Proof.
  unfold Code.generateUniqueCode, Code.substr.
  by rewrite length_toUpperCase, length_substring.
Qed.

(** X14. A ticket code holds no lower-case letter. *)
Theorem code_has_no_lower_case (rnd36 : string) :
  Forall (λ c, ¬ (97 ≤ nat_of_ascii c ≤ 122))
         (list_ascii_of_string (Code.generateUniqueCode rnd36)).
Proof.
  unfold Code.generateUniqueCode.
  induction (Code.substr 2 9 rnd36) as [|c s IH]; simpl; constructor;
    [apply upper_ascii_not_lower | exact IH].
Qed.

(** X15. A ticket code depends on the first eleven characters of the
    rendering only: whatever follows them does not change the code. *)
Theorem code_ignores_the_tail (rnd36 tail : string) :
  11 ≤ String.length rnd36 →
  Code.generateUniqueCode (rnd36 ++ tail)%string
  = Code.generateUniqueCode rnd36.
Proof.
  intros Hlen. unfold Code.generateUniqueCode, Code.substr.
  by rewrite substring_append by (simpl; lia).
Qed.

End Code_shape.

(** ** Registration *)

Module Registration.

Import Users.

Section Register_facts.

Variable hashSync : string → string → string.
Variable validates : User → bool.

#[local] Abbreviation register := (Users.register hashSync validates).
#[local] Abbreviation newUser := (Users.newUser hashSync).

Lemma findOne_None e (users : list User) :
  findOne e users = None ↔ e ∉ map email users.
Proof.
  induction users as [|u users IH]; simpl.
  - split; [intros _; apply not_elem_of_nil | done].
  - rewrite not_elem_of_cons. case_decide as Heq.
    + split; [done|]. by intros [Hne _].
    + rewrite IH. split; [by split|by intros [_ Hout]].
Qed.

Lemma findOne_Some e (users : list User) u :
  findOne e users = Some u → email u = e ∧ u ∈ users.
Proof.
  induction users as [|v users IH]; simpl; [done|].
  case_decide.
  - intros [= <-]. split; [done|]. apply elem_of_cons. by left.
  - intros Hfind. destruct (IH Hfind). split; [done|].
    apply elem_of_cons. by right.
Qed.

Lemma findOne_app_l e (users more : list User) u :
  findOne e users = Some u → findOne e (users ++ more) = Some u.
Proof.
  induction users as [|v users IH]; simpl; [done|]. by case_decide.
Qed.

Lemma findOne_app_r e (users more : list User) :
  findOne e users = None → findOne e (users ++ more) = findOne e more.
Proof.
  induction users as [|v users IH]; simpl; [done|]. by case_decide.
Qed.

Lemma role_or_user_not_empty r : role_or_user r ≠ EmptyString.
Proof.
  destruct r as [s|]; simpl; [|done]. by case_decide.
Qed.

(** The three ways the handler ends. *)
Lemma register_cases salt body (users : list User) :
  (b_email body ∈ map email users ∧
   register salt body users = (Exists400, users)) ∨
  ((b_email body ∉ map email users) ∧
   validates (newUser salt body) = true ∧
   register salt body users = (Created201, users ++ [newUser salt body])) ∨
  ((b_email body ∉ map email users) ∧
   validates (newUser salt body) = false ∧
   register salt body users = (Server500, users)).
Proof.
  unfold Users.register.
  destruct (findOne (b_email body) users) as [u|] eqn:Hfind.
  - left. split; [|done]. apply findOne_Some in Hfind as [<- Hu].
    apply list_elem_of_fmap. by exists u.
  - apply findOne_None in Hfind.
    destruct (validates (newUser salt body)) eqn:Hv; [right; left|right; right];
      done.
Qed.

(** X16. A registration with the email of a stored user is answered
    [400] and stores nothing, whatever the other fields are. *)
Theorem duplicate_email_rejected salt body (users : list User) :
  b_email body ∈ map email users →
  register salt body users = (Exists400, users).
Proof.
  intros Hin.
  destruct (register_cases salt body users)
    as [[_ ->]|[(Hout&_)|(Hout&_)]]; done.
Qed.

(** X17. A registration with a new email that the schema accepts is
    answered [201], and looking the email up afterwards finds the new
    user: the fields of the body, the hash in place of the password. *)
Theorem fresh_email_registered salt body (users : list User) :
  b_email body ∉ map email users →
  validates (newUser salt body) = true →
  (register salt body users).1 = Created201 ∧
  findOne (b_email body) (register salt body users).2
  = Some {| first_name := b_first_name body;
            last_name := b_last_name body;
            email := b_email body;
            age := b_age body;
            password := hashSync (b_password body) salt;
            cart := b_cart body;
            role := role_or_user (b_role body) |}.
Proof.
  intros Hout Hv.
  destruct (register_cases salt body users)
    as [[Hin _]|[(_&_&->)|(_&Hv'&_)]]; [done| |congruence].
  split; [done|]. simpl.
  rewrite findOne_app_r by by apply findOne_None.
  simpl. by rewrite decide_True.
Qed.

(** X18. Registrations keep emails unique: when no two stored users share
    an email, none do after a registration, whatever its answer. *)
Theorem emails_stay_unique salt body (users : list User) :
  NoDup (map email users) →
  NoDup (map email (register salt body users).2).
Proof.
  intros Hnodup.
  destruct (register_cases salt body users)
    as [[_ ->]|[(Hout&_&->)|(_&_&->)]]; simpl; [done| |done].
  rewrite map_app. apply NoDup_app. split; [done|]. split.
  - intros e He Hnew. apply list_elem_of_singleton in Hnew as ->. done.
  - apply NoDup_singleton.
Qed.

(** X19. Registering the same body a second time, after a [201], is
    answered [400] and stores nothing, whatever salt is drawn. *)
Theorem second_registration_rejected salt salt' body (users : list User) :
  (register salt body users).1 = Created201 →
  register salt' body (register salt body users).2
  = (Exists400, (register salt body users).2).
Proof.
  intros Hfirst.
  destruct (register_cases salt body users)
    as [[_ E]|[(_&_&E)|(_&_&E)]]; rewrite E in Hfirst |- *; try done.
  simpl.
  destruct (register_cases salt' body (users ++ [newUser salt body]))
    as [[_ ->]|[(Hout&_)|(Hout&_)]]; [done| |];
    destruct Hout; rewrite map_app; apply elem_of_app; right;
    by apply list_elem_of_singleton.
Qed.

(** X20. A registration never removes or changes a stored user: the
    users stored before are the first users stored after, and every email
    that found a user before finds the same user after. *)
Theorem stored_users_kept salt body (users : list User) e u :
  findOne e users = Some u →
  users `prefix_of` (register salt body users).2 ∧
  findOne e (register salt body users).2 = Some u.
Proof.
  intros Hfind.
  destruct (register_cases salt body users)
    as [[_ ->]|[(_&_&->)|(_&_&->)]]; simpl; try done.
  split; [by apply prefix_app_r | by apply findOne_app_l].
Qed.

(** X21. A stored role is never empty: when no stored user has the empty
    role, none has after a registration, also when the body has no role
    or an empty one. *)
Theorem roles_never_empty salt body (users : list User) :
  Forall (λ u, role u ≠ EmptyString) users →
  Forall (λ u, role u ≠ EmptyString) (register salt body users).2.
Proof.
  intros Hroles.
  destruct (register_cases salt body users)
    as [[_ ->]|[(_&_&->)|(_&_&->)]]; simpl; try done.
  apply Forall_app. split; [done|]. constructor; [|constructor].
  apply role_or_user_not_empty.
Qed.

End Register_facts.

End Registration.

(** ** The further theorems at concrete inputs *)

Module More_examples.

Import Scenario More_scenarios.
Open Scope string_scope.

Lemma other_carts_untouched_witness :
  db_carts (purchase "0.i" 0 "C1" db0).2 !! "C2" = db_carts db0 !! "C2".
Proof. apply other_carts_untouched. discriminate. Defined.

Lemma abort_keeps_earlier_reservations_witness :
  ∃ l : Loop Z,
    for_of [mkItem "P1" 2] (initial (db_products db_missing)) = Normal l ∧
    purchase "0.i" 0 "C1" db_missing
    = (Error500, with_products db_missing (docs l)).
Proof.
  apply (abort_keeps_earlier_reservations "0.i" 0 "C1" db_missing
           {| user := Some "U1";
              products := [mkItem "P1" 2; mkItem "P9" 1] |}
           "U1" [mkItem "P1" 2] (mkItem "P9" 1) []).
  - by_evaluation.
  - reflexivity.
  - reflexivity.
  - constructor; [eexists; by_evaluation | constructor].
  - by_evaluation.
Defined.

Lemma partition_in_cart_order_witness :
  map item_of_line (t_products ticket0)
    `sublist_of` [mkItem "P1" 2; mkItem "P2" 5] ∧
  ["P2"] `sublist_of` map product [mkItem "P1" 2; mkItem "P2" 5] ∧
  ∃ cart', db_carts db0_after !! "C1" = Some cart' ∧
           user cart' = Some "U1" ∧
           products cart' `sublist_of` [mkItem "P1" 2; mkItem "P2" 5].
Proof.
  apply (partition_in_cart_order "0.i" 0 "C1" db0
           {| user := Some "U1";
              products := [mkItem "P1" 2; mkItem "P2" 5] |}
           ticket0 ["P2"] db0_after); by_evaluation.
Defined.

Lemma empty_cart_ticket_witness :
  purchase "0.i" 0 "C1" db_empty
  = (Ok200 (mkTicket "I" "U1" [] 0 0) [],
     {| db_products := db_products db_empty;
        db_carts := db_carts db_empty;
        db_tickets := [mkTicket "I" "U1" [] 0 0] |}).
Proof.
  exact (empty_cart_ticket "0.i" 0 "C1" db_empty "U1" eq_refl).
Defined.

Lemma no_line_item_lost_witness :
  ∃ cart', db_carts db_twice_after !! "C1" = Some cart' ∧
    (∀ item, item ∈ [mkItem "P1" 1; mkItem "P1" 20] →
             item ∈ map item_of_line (t_products ticket_twice)
             ∨ item ∈ products cart') ∧
    (∀ item, item ∈ products cart' ↔
             item ∈ [mkItem "P1" 1; mkItem "P1" 20] ∧ product item ∈ ["P1"]).
Proof.
  apply (no_line_item_lost "0.i" 0 "C1" db_twice
           {| user := Some "U1";
              products := [mkItem "P1" 1; mkItem "P1" 20] |}
           ticket_twice ["P1"] db_twice_after); by_evaluation.
Defined.

Lemma initial_stock_decides_witness :
  map item_of_line (t_products ticket0)
  = filter (in_reach (db_products db0)) [mkItem "P1" 2; mkItem "P2" 5].
Proof.
  apply (initial_stock_decides "0.i" 0 "C1" db0
           {| user := Some "U1";
              products := [mkItem "P1" 2; mkItem "P2" 5] |}
           ticket0 ["P2"] db0_after).
  - by_evaluation.
  - by_decision.
  - by_evaluation.
Defined.

Lemma immediate_rerun_changes_nothing_witness :
  purchase "0.9" 1 "C1" db0_after
  = (Ok200 ticket_again ["P2"],
     {| db_products := db_products db0_after;
        db_carts := db_carts db0_after;
        db_tickets := [ticket0; ticket_again] |}).
Proof.
  refine (immediate_rerun_changes_nothing "0.i" 0 "C1" db0
            {| user := Some "U1";
               products := [mkItem "P1" 2; mkItem "P2" 5] |}
            ticket0 ["P2"] db0_after "0.9" 1 _ _ _).
  - by_evaluation.
  - by_decision.
  - by_evaluation.
Defined.

Lemma stock_never_increases_witness :
  db_products (purchase "0.i" 0 "C1" db0).2 !! "P1"
  = Some {| price := 3; stock := 8 |} ∧
  (stock {| price := 3; stock := 8 |}
   ≤ stock {| price := 3; stock := 10 |})%Z.
Proof.
  split; [by_evaluation|].
  apply (stock_never_increases "0.i" 0 "C1" db0
           {| user := Some "U1";
              products := [mkItem "P1" 2; mkItem "P2" 5] |} "P1").
  - by_evaluation.
  - repeat constructor; simpl; lia.
  - by_evaluation.
  - by_evaluation.
Defined.

Lemma nonpositive_quantity_ticketed_witness :
  purchase "0.i" 0 "C1" db_negative
  = (Ok200 ticket_negative [], db_negative_after) ∧
  mkItem "P1" (-3) ∈ map item_of_line (t_products ticket_negative).
Proof.
  split; [by_evaluation|].
  apply (nonpositive_quantity_ticketed "0.i" 0 "C1" db_negative
           {| user := Some "U1"; products := [mkItem "P1" (-3)] |}
           (mkItem "P1" (-3)) ticket_negative [] db_negative_after).
  - by_decision.
  - by_evaluation.
  - apply elem_of_cons. by left.
  - simpl. lia.
  - by_evaluation.
Defined.

Lemma code_ignores_the_tail_witness :
  Code.generateUniqueCode ("0.4fzyo82mvyr" ++ "zz")
  = Code.generateUniqueCode "0.4fzyo82mvyr".
Proof. apply code_ignores_the_tail. simpl. lia. Defined.

End More_examples.

Module Registration_examples.

Import Users.
Open Scope string_scope.

Lemma duplicate_email_rejected_witness :
  register toy_hash accept_all "s2" juan [stored_juan]
  = (Exists400, [stored_juan]).
Proof.
  apply Registration.duplicate_email_rejected.
  apply elem_of_cons. by left.
Defined.

Lemma fresh_email_registered_witness :
  (register toy_hash accept_all "s1" juan []).1 = Created201 ∧
  findOne "juan.perez@example.com"
          (register toy_hash accept_all "s1" juan []).2
  = Some {| first_name := "Juan"; last_name := "Perez";
            email := "juan.perez@example.com"; age := 30;
            password := toy_hash "password123" "s1";
            cart := None; role := "user" |}.
Proof.
  apply (Registration.fresh_email_registered toy_hash accept_all "s1" juan []).
  - apply not_elem_of_nil.
  - reflexivity.
Defined.

Lemma emails_stay_unique_witness :
  NoDup (map email (register toy_hash accept_all "s2" juan [stored_juan]).2).
Proof.
  apply Registration.emails_stay_unique. by_decision.
Defined.

Lemma second_registration_rejected_witness :
  register toy_hash accept_all "s2" juan
           (register toy_hash accept_all "s1" juan []).2
  = (Exists400, (register toy_hash accept_all "s1" juan []).2).
Proof. apply Registration.second_registration_rejected. reflexivity. Defined.

Lemma stored_users_kept_witness :
  [stored_juan]
    `prefix_of` (register toy_hash accept_all "s2" juan [stored_juan]).2 ∧
  findOne "juan.perez@example.com"
          (register toy_hash accept_all "s2" juan [stored_juan]).2
  = Some stored_juan.
Proof. apply Registration.stored_users_kept. reflexivity. Defined.

Lemma roles_never_empty_witness :
  Forall (λ u, role u ≠ EmptyString)
         (register toy_hash accept_all "s1" juan []).2.
Proof. apply Registration.roles_never_empty. constructor. Defined.

End Registration_examples.

(** ** The handler with its awaits: facts *)

Section Awaits_facts.

Context `{Number money}.
Implicit Types (env : Models money) (db : Db money) (cart : Cart).
Implicit Types (l : Loop money) (d stored : gmap ObjectId (Product money)).

Lemma save_stock_alone pid (p p' : Product money) d :
  d !! pid = Some p → price p' = price p →
  save_stock pid p p' d = <[pid := p']> d.
Proof.
  intros Hp Hprice. unfold save_stock. case_decide as Hstock.
  - rewrite insert_id; [done|]. rewrite Hp. f_equal.
    destruct p, p'; simpl in *; congruence.
  - apply map_eq. intros k. rewrite lookup_alter, lookup_insert.
    case_decide as Hk; [|done]. subst k. rewrite Hp. simpl.
    f_equal. destruct p'; simpl in *; congruence.
Qed.

(** With a store that accepts every product, and the stored products those
    of the request, one iteration is [iteration]. *)
Lemma iteration_on_alone env l item :
  (∀ pid p, product_saves env pid p = true) →
  iteration_on env l (docs l) item
  = match iteration l item with
    | Normal l' => Proceeds l' (docs l')
    | TypeError l' => Throws (docs l')
    end.
Proof.
  intros Hsaves. unfold iteration_on, iteration.
  destruct (docs l !! product item) as [p|] eqn:Hp; [|done].
  case_decide; [|done]. rewrite Hsaves. simpl.
  by rewrite (save_stock_alone _ p) by done.
Qed.

Lemma for_of_on_alone env (items : list CartItem) l :
  (∀ pid p, product_saves env pid p = true) →
  for_of_on env items l (docs l)
  = match for_of items l with
    | Normal l' => Proceeds l' (docs l')
    | TypeError l' => Throws (docs l')
    end.
Proof.
  intros Hsaves. revert l. induction items as [|item items IH]; intros l;
    simpl; [done|].
  rewrite iteration_on_alone by done.
  destruct (iteration l item) as [l1|l1]; [apply IH | done].
Qed.

(** When the query resolves and the store accepts every write, the
    handler is [purchase]. *)
Lemma checkout_alone env rnd36 now cid db :
  accepting env → query_resolves env cid = true →
  checkout env rnd36 now cid db = purchase rnd36 now cid db.
Proof.
  intros (Hp & Ht & Hc) Hcast. unfold checkout, load, resume, purchase.
  rewrite Hcast. destruct (db_carts db !! cid) as [cart|]; [|done].
  destruct (user cart) as [u|]; [|done].
  change (db_products db) with (docs (initial (db_products db))) at 2.
  rewrite for_of_on_alone by done.
  destruct (for_of _ _) as [l|l]; [|done].
  destruct (ticket_lines _ _) as [lines|]; [|done]. simpl.
  rewrite Ht. destruct (residual _ _ _) as [kept|]; [|done].
  by rewrite Hc.
Qed.

(** A loop that proceeds met no [null] product. *)
Lemma for_of_on_Proceeds env (items : list CartItem) l stored l' stored' :
  for_of_on env items l stored = Proceeds l' stored' →
  Forall (resolved (docs l)) items.
Proof.
  revert l stored. induction items as [|item items IH]; intros l stored;
    simpl; [constructor|].
  destruct (iteration_on env l stored item) as [l1 stored1|] eqn:Hit; [|done].
  intros Hfor. unfold iteration_on in Hit.
  destruct (docs l !! product item) as [p|] eqn:Hp; [|done].
  constructor; [by exists p|].
  eapply Forall_impl; [exact (IH _ _ Hfor)|]. intros i. unfold resolved.
  case_decide; [destruct (product_saves env _ _); [|done]|];
    injection Hit as <- _; simpl; [|done].
  rewrite lookup_insert. case_decide as Hk; [|done].
  intros _. rewrite <- Hk, Hp. by eexists.
Qed.

(** The ways the handler ends, and the ledger with each. *)
Lemma checkout_cases env rnd36 now cid db :
  (query_resolves env cid = false ∧ checkout env rnd36 now cid db = (Error500, db)) ∨
  (query_resolves env cid = true ∧ db_carts db !! cid = None ∧
   checkout env rnd36 now cid db = (NotFound404, db)) ∨
  (query_resolves env cid = true ∧
   ∃ cart, db_carts db !! cid = Some cart ∧ user cart = None ∧
           checkout env rnd36 now cid db = (BadRequest400, db)) ∨
  (query_resolves env cid = true ∧
   ∃ cart u db', db_carts db !! cid = Some cart ∧ user cart = Some u ∧
     checkout env rnd36 now cid db = (Error500, db') ∧
     db_carts db' = db_carts db ∧
     (db_tickets db' = db_tickets db ∨
      ∃ t, ticket_creates env t = true ∧ t_user t = u ∧
           db_tickets db' = db_tickets db ++ [t])) ∨
  (query_resolves env cid = true ∧
   ∃ cart u t np db', db_carts db !! cid = Some cart ∧ user cart = Some u ∧
     Forall (resolved (db_products db)) (products cart) ∧
     ticket_creates env t = true ∧ t_user t = u ∧
     checkout env rnd36 now cid db = (Ok200 t np, db') ∧
     db_tickets db' = db_tickets db ++ [t] ∧
     ∀ cid', cid' ≠ cid → db_carts db' !! cid' = db_carts db !! cid').
Proof.
  unfold checkout, load.
  destruct (query_resolves env cid) eqn:Hcast; [|by left].
  right. destruct (db_carts db !! cid) as [cart|] eqn:Hcart; [|by left].
  right. unfold resume. destruct (user cart) as [u|] eqn:Hu.
  2: { left. split; [done|]. by exists cart. }
  right.
  destruct (for_of_on _ _ _ _) as [l stored|stored] eqn:Hfor.
  2: { left. split; [done|]. exists cart, u. eexists.
       repeat (split; [done|]). by left. }
  destruct (ticket_lines _ _) as [lines|].
  2: { left. split; [done|]. exists cart, u. eexists.
       repeat (split; [done|]). by left. }
  simpl. destruct (ticket_creates env _) eqn:Hcreate.
  2: { left. split; [done|]. exists cart, u. eexists.
       repeat (split; [done|]). by left. }
  destruct (residual _ _ _) as [kept|].
  2: { left. split; [done|]. exists cart, u. eexists.
       repeat (split; [done|]). right. eexists. by repeat split. }
  destruct (cart_saves env cid _).
  - right. split; [done|]. exists cart, u. eexists _, _, _.
    repeat (split; [done|]). split; [exact (for_of_on_Proceeds _ _ _ _ _ _ Hfor)|].
    split; [exact Hcreate|]. repeat (split; [done|]). simpl.
    intros cid' Hne. by rewrite lookup_insert_ne.
  - left. split; [done|]. exists cart, u. eexists.
    repeat (split; [done|]). right. eexists. by repeat split.
Qed.

End Awaits_facts.

(** ** The handler with its awaits: answers, ledger, isolated runs *)

Section Awaits_behaviour.

Context `{Number money}.
Implicit Types (env : Models money) (db : Db money) (cart : Cart).
Implicit Types (l : Loop money) (t : Ticket money).

(** C5 (amended). For every cart identifier that matches no stored cart,
    checkout changes no product, no cart and no ticket; when the query by
    the identifier resolves, which takes an identifier that casts to an
    [ObjectId], it answers with the not-found failure. *)
Theorem unknown_cart_changes_nothing env rnd36 now cid db :
  db_carts db !! cid = None →
  (checkout env rnd36 now cid db).2 = db ∧
  (query_resolves env cid = true →
   checkout env rnd36 now cid db = (NotFound404, db)).
Proof.
  intros Hcart. unfold checkout, load. rewrite Hcart.
  by destruct (query_resolves env cid).
Qed.

(** X1. What an answer tells: [404] exactly when the query by the
    identifier resolves and no cart has it; [400] exactly when it resolves
    and the cart has no user; [200] only when it resolves, the cart has
    the user of the ticket, every product resolves and the store accepted
    the ticket; [500] only when the query is rejected or the cart has a
    user. *)
Theorem answer_classification env rnd36 now cid db :
  match (checkout env rnd36 now cid db).1 with
  | NotFound404 => query_resolves env cid = true ∧ db_carts db !! cid = None
  | BadRequest400 =>
      query_resolves env cid = true ∧
      ∃ cart, db_carts db !! cid = Some cart ∧ user cart = None
  | Ok200 t _ =>
      query_resolves env cid = true ∧ ticket_creates env t = true ∧
      ∃ cart, db_carts db !! cid = Some cart ∧ user cart = Some (t_user t) ∧
              Forall (resolved (db_products db)) (products cart)
  | Error500 =>
      query_resolves env cid = false ∨
      ∃ cart, db_carts db !! cid = Some cart ∧ is_Some (user cart)
  end ∧
  (query_resolves env cid = true → db_carts db !! cid = None →
   (checkout env rnd36 now cid db).1 = NotFound404) ∧
  (query_resolves env cid = true →
   ∀ cart, db_carts db !! cid = Some cart → user cart = None →
           (checkout env rnd36 now cid db).1 = BadRequest400).
Proof.
  destruct (checkout_cases env rnd36 now cid db)
    as [[Hcast E]|[(Hcast&Hcart&E)|[(Hcast&cart&Hcart&Hu&E)
       |[(Hcast&cart&u&db'&Hcart&Hu&E&_)
        |(Hcast&cart&u&t&np&db'&Hcart&Hu&Hres&Hcreate&Htu&E&_)]]]];
    rewrite E; simpl.
  - split; [by left|]. split; congruence.
  - split; [done|]. split; [done|]. intros _ cart. congruence.
  - split; [split; [done|by exists cart]|]. split; [congruence|done].
  - split; [right; exists cart; split; [done|by eexists]|].
    split; [congruence|]. intros _ cart'. congruence.
  - split; [|split; [congruence|intros _ cart'; congruence]].
    split; [done|]. split; [done|]. exists cart. by rewrite Htu.
Qed.

(** X2. The ledger only grows, by at most one ticket for a checkout: a
    [200] appends exactly the ticket of the answer, whose user is the user
    of the cart; a [404] or a [400] leaves the ledger as it was; after a
    [500] the ledger is as it was or holds one more ticket. *)
Theorem ledger_append_only env rnd36 now cid db :
  db_tickets db `prefix_of` db_tickets (checkout env rnd36 now cid db).2 ∧
  match (checkout env rnd36 now cid db).1 with
  | Ok200 t _ =>
      db_tickets (checkout env rnd36 now cid db).2 = db_tickets db ++ [t] ∧
      ∃ cart, db_carts db !! cid = Some cart ∧ user cart = Some (t_user t)
  | NotFound404 | BadRequest400 =>
      db_tickets (checkout env rnd36 now cid db).2 = db_tickets db
  | Error500 =>
      db_tickets (checkout env rnd36 now cid db).2 = db_tickets db ∨
      ∃ t, db_tickets (checkout env rnd36 now cid db).2 = db_tickets db ++ [t]
  end.
Proof.
  destruct (checkout_cases env rnd36 now cid db)
    as [[Hcast E]|[(Hcast&Hcart&E)|[(Hcast&cart&Hcart&Hu&E)
       |[(Hcast&cart&u&db'&Hcart&Hu&E&_&Hledger)
        |(Hcast&cart&u&t&np&db'&Hcart&Hu&Hres&Hcreate&Htu&E&Hledger&_)]]]];
    rewrite E; simpl.
  - split; [done|by left].
  - done.
  - done.
  - destruct Hledger as [->|(t&_&_&->)].
    + split; [done|by left].
    + split; [by apply prefix_app_r|]. right. by exists t.
  - rewrite Hledger. split; [by apply prefix_app_r|]. split; [done|].
    exists cart. by rewrite Htu.
Qed.

(** X25. When the store accepts the products and the ticket and rejects
    [cart.save()], a checkout that would have answered [200] answers
    [500] with the stock decremented and the ticket stored, and the cart
    as it was. *)
Theorem rejected_cart_save_keeps_ticket env rnd36 now cid db t np db' :
  query_resolves env cid = true →
  (∀ pid p, product_saves env pid p = true) →
  (∀ t', ticket_creates env t' = true) →
  (∀ cart', cart_saves env cid cart' = false) →
  purchase rnd36 now cid db = (Ok200 t np, db') →
  checkout env rnd36 now cid db
  = (Error500,
     {| db_products := db_products db';
        db_carts := db_carts db;
        db_tickets := db_tickets db ++ [t] |}).
Proof.
  intros Hcast Hp Ht Hc Hrun.
  destruct (purchase_Ok200 _ _ _ _ _ _ _ Hrun)
    as (cart & u & l & lines & left & Hcart & Hu & Hfor & Hlines & Hleft
        & -> & -> & ->).
  unfold checkout, load, resume. rewrite Hcast, Hcart, Hu.
  change (db_products db) with (docs (initial (db_products db))) at 2.
  rewrite for_of_on_alone, Hfor, Hlines by done. simpl.
  by rewrite Ht, Hleft, Hc.
Qed.

(** X22. One checkout run with no other request between its awaits, on
    products with no negative stock.  The loop visits the line items in
    order: each one meets a non-negative stock; when its quantity is at
    most that stock the quantity leaves the stock and the item is pushed
    to the processed ones, and otherwise only its product is pushed to the
    not-processed ones.  No stock is negative at the end, the final stock
    of every product is its initial stock less the units of the processed
    line items on it, and after a [200] those are the lines of the
    ticket. *)
Theorem isolated_run_accounted rnd36 now cid db cart :
  in_stock (db_products db) →
  db_carts db !! cid = Some cart → is_Some (user cart) →
  (∀ seen item rest l p,
      products cart = seen ++ item :: rest →
      for_of seen (initial (db_products db)) = Normal l →
      docs l !! product item = Some p →
      0 ≤ stock p ∧
      for_of (seen ++ [item]) (initial (db_products db))
      = Normal
          (if decide (quantity item ≤ stock p) then
             {| docs := <[product item := debit (quantity item) p]> (docs l);
                totalAmount := madd (totalAmount l)
                                    (mscale (price p) (quantity item));
                productsNotProcessed := productsNotProcessed l;
                productsProcessed := productsProcessed l ++ [item] |}
           else
             {| docs := docs l;
                totalAmount := totalAmount l;
                productsNotProcessed :=
                  productsNotProcessed l ++ [product item];
                productsProcessed := productsProcessed l |})) ∧
  in_stock (db_products (purchase rnd36 now cid db).2) ∧
  (∀ pid, db_products (purchase rnd36 now cid db).2 !! pid
          = debit (units pid (reservations cid db))
              <$> db_products db !! pid) ∧
  (∀ t np db', purchase rnd36 now cid db = (Ok200 t np, db') →
               map item_of_line (t_products t) = reservations cid db).
Proof.
  intros Hin Hcart Huser.
  assert (checkout_loop cid db
          = Some (for_of (products cart) (initial (db_products db))))
    as Hloop by by apply checkout_loop_Some.
  split; [|split; [|split]].
  - intros seen item rest l p _ Hseen Hp. split.
    + pose proof (for_of_in_stock seen (initial (db_products db)) Hin) as Hs.
      rewrite Hseen in Hs. exact (Hs _ _ Hp).
    + rewrite for_of_app, Hseen. simpl.
      destruct (iteration_cases l item) as [(q&Hq&Hle&E)|[(q&Hq&Hlt&E)|[Hq E]]];
        [| |congruence]; assert (q = p) as -> by congruence; rewrite E.
      * by rewrite decide_True.
      * by rewrite decide_False by lia.
  - rewrite purchase_products, Hloop. by apply for_of_in_stock.
  - intros pid. rewrite purchase_products. unfold reservations.
    rewrite Hloop. apply for_of_docs_initial.
  - intros t np db' Hrun.
    destruct (purchase_Ok200 _ _ _ _ _ _ _ Hrun)
      as (cart' & u & l & lines & left & Hcart' & Hu & Hfor & Hlines & _
          & -> & _).
    assert (cart' = cart) as -> by congruence.
    unfold reservations. rewrite Hloop, Hfor. simpl.
    by destruct (ticket_lines_items _ _ _ Hlines) as [-> _].
Qed.

End Awaits_behaviour.

(** ** What the handler does where the claims fail *)

Module Defects.

Import Scenario More_scenarios Requests.
Open Scope string_scope.

(** C1 (what the handler does instead). Cart [C1] holds 1 unit and 20
    units of [P1], which has stock 10.  The first line item is pushed to
    the processed ones and ticketed; the second puts [P1] in the
    not-processed list; the filter on that list keeps both.  The ticketed
    line item is in the ticket and still in the cart: the line items are
    not conserved. *)
Theorem ticketed_line_item_stays_in_cart :
  purchase "0.i" 0 "C1" db_twice
  = (Ok200 ticket_twice ["P1"], db_twice_after) ∧
  mkItem "P1" 1 ∈ map item_of_line (t_products ticket_twice) ∧
  db_carts db_twice_after !! "C1"
  = Some {| user := Some "U1";
            products := [mkItem "P1" 1; mkItem "P1" 20] |} ∧
  ¬ conserves_line_items "0.i" 0 "C1" db_twice.
Proof.
  assert (purchase "0.i" 0 "C1" db_twice
          = (Ok200 ticket_twice ["P1"], db_twice_after)) as Hrun
    by by_evaluation.
  split; [exact Hrun|]. split; [apply elem_of_cons; by left|].
  split; [by_evaluation|]. intros Hcons.
  destruct (Hcons {| user := Some "U1";
                     products := [ mkItem "P1" 1; mkItem "P1" 20 ] |})
    as (t & np & db' & left & Hrun' & Hleft & Hperm).
  - by_evaluation.
  - by eexists.
  - rewrite Hrun in Hrun'. injection Hrun' as <- <- <-.
    vm_compute in Hleft. injection Hleft as <-.
    apply Permutation_length in Hperm. discriminate.
Qed.

(** C7 (what the handler does instead). With the same cart, the first
    checkout tickets 1 unit of [P1] (stock 9) and leaves that line item in
    the cart; a second checkout of the cart tickets it again (stock 8). *)
Theorem ticketed_line_item_sold_again :
  purchase "0.i" 0 "C1" db_twice
  = (Ok200 ticket_twice ["P1"], db_twice_after) ∧
  purchase "0.9" 1 "C1" db_twice_after
  = (Ok200 ticket_twice_again ["P1"], db_twice_again) ∧
  db_products db_twice_after !! "P1" = Some {| price := 3; stock := 9 |} ∧
  db_products db_twice_again !! "P1" = Some {| price := 3; stock := 8 |} ∧
  ¬ rerun_spares_ticketed "0.i" 0 "C1" db_twice.
Proof.
  assert (purchase "0.i" 0 "C1" db_twice
          = (Ok200 ticket_twice ["P1"], db_twice_after)) as Hrun
    by by_evaluation.
  assert (purchase "0.9" 1 "C1" db_twice_after
          = (Ok200 ticket_twice_again ["P1"], db_twice_again)) as Hrun2
    by by_evaluation.
  split; [exact Hrun|]. split; [exact Hrun2|].
  split; [by_evaluation|]. split; [by_evaluation|]. intros Hspare.
  pose proof (Hspare _ _ _ Hrun "0.9" 1 "P1") as Hstock.
  rewrite Hrun2 in Hstock.
  assert (Some {| price := 3; stock := 8 |}
          = Some {| price := 3; stock := 9 |} :> option (Product Z)) as Heq.
  { etrans; [|etrans; [apply Hstock|]].
    - by_evaluation.
    - apply elem_of_cons. by left.
    - by_evaluation. }
  discriminate.
Qed.

(** C2 (what the handler does instead). Two requests, for carts [CA] and
    [CB] with 6 units of [P1] each, both load while the stock of [P1] is
    10.  Request A then runs to its end: it tickets 6 units and saves
    stock 4.  Request B resumes with the document it loaded: its guard
    reads 10, it tickets 6 units and saves stock 4.  Twelve units are
    ticketed and the stock went from 10 to 4.  Had request B loaded after
    request A ended, it would have ticketed nothing. *)
Theorem concurrent_checkouts_oversell :
  load lenient "CA" db_race = Populated cart_A (db_products db_race) ∧
  load lenient "CB" db_race = Populated cart_B (db_products db_race) ∧
  resume lenient "0.i" 1 "CA" cart_A (db_products db_race) db_race
  = (Ok200 ticket_A [], db_race_A) ∧
  resume lenient "0.9" 2 "CB" cart_B (db_products db_race) db_race_A
  = (Ok200 ticket_B [], db_race_AB) ∧
  db_products db_race !! "P1" = Some {| price := 3; stock := 10 |} ∧
  db_products db_race_AB !! "P1" = Some {| price := 3; stock := 4 |} ∧
  units "P1" (map item_of_line (t_products ticket_A ++ t_products ticket_B))
  = 12%Z ∧
  (checkout lenient "0.9" 2 "CB" db_race_A).1 = Ok200 ticket_B_later ["P1"].
Proof. repeat split; by_evaluation. Qed.

(** C5 (counterexample). The identifier [not-an-id] matches no stored cart
    and does not cast to an [ObjectId]: the query is rejected and the
    handler answers [500], not the not-found failure. *)
Lemma malformed_identifier_answered_500 :
  ¬ not_found_is_404 mongo "0.i" 0 "not-an-id" db_hex.
Proof.
  intros Hclaim. assert (db_carts db_hex !! "not-an-id" = None) as Hcart
    by by_evaluation.
  specialize (Hclaim Hcart). vm_compute in Hclaim. discriminate.
Qed.

Lemma unknown_cart_changes_nothing_witness :
  db_carts db_hex !! "64b7f0c2a1d3e4f5a6b7c8aa" = None ∧
  checkout mongo "0.i" 0 "64b7f0c2a1d3e4f5a6b7c8aa" db_hex
  = (NotFound404, db_hex) ∧
  (checkout mongo "0.i" 0 "not-an-id" db_hex).2 = db_hex.
Proof.
  split; [by_evaluation|]. split.
  - apply (unknown_cart_changes_nothing mongo "0.i" 0
             "64b7f0c2a1d3e4f5a6b7c8aa" db_hex); by_evaluation.
  - apply (unknown_cart_changes_nothing mongo "0.i" 0 "not-an-id" db_hex).
    by_evaluation.
Defined.

Lemma rejected_cart_save_keeps_ticket_witness :
  checkout cart_store_down "0.i" 0 "C1" db0
  = (Error500,
     {| db_products := db_products db0_after;
        db_carts := db_carts db0;
        db_tickets := [ticket0] |}).
Proof.
  refine (rejected_cart_save_keeps_ticket cart_store_down "0.i" 0 "C1" db0
            ticket0 ["P2"] db0_after _ _ _ _ _).
  - reflexivity.
  - reflexivity.
  - reflexivity.
  - reflexivity.
  - by_evaluation.
Defined.

Lemma isolated_run_accounted_witness :
  (db_products (purchase "0.i" 0 "C1" db0).2 !! "P1"
   = debit (units "P1" (reservations "C1" db0)) <$> db_products db0 !! "P1") ∧
  units "P1" (reservations "C1" db0) = 2%Z ∧
  db_products (purchase "0.i" 0 "C1" db0).2 !! "P1"
  = Some {| price := 3; stock := 8 |} ∧
  map item_of_line (t_products ticket0) = reservations "C1" db0.
Proof.
  destruct (isolated_run_accounted "0.i" 0 "C1" db0
              {| user := Some "U1";
                 products := [mkItem "P1" 2; mkItem "P2" 5] |})
    as (_ & _ & Hstock & Hticket).
  - by_decision.
  - by_evaluation.
  - by eexists.
  - split; [apply Hstock|]. split; [by_evaluation|]. split; [by_evaluation|].
    apply (Hticket ticket0 ["P2"] db0_after). by_evaluation.
Defined.

End Defects.
